(** * label_tools: label layout scripts, embedded and verified

    Shallow embedding of the three label generators

      - [2x2_TradingCard_Labels/make_card_2x2_labels.py]     (module [Card])
      - [2x2_TradingCard_Labels/make_pokemon_2x2_labels.py]  (module [Pokemon])
      - [4x3_Comic_Labels/make_comic_4x3_labels.py]          (module [Comic])

    Conventions of the embedding.

    - A Python [str] is a list of Unicode code points ([list N]).
    - A Python number used for layout (the cursor [y], margins, widths) is
      a rational [Q].  The integer constants of the scripts are embedded as
      the corresponding rationals, and a Python float is read as the
      rational it denotes: float arithmetic is taken to be exact, rounding
      is not part of the embedding.  Division by zero raises.
    - The reportlab canvas is the log of the calls made on it, in call
      order; a function of the scripts that draws takes the canvas and
      returns the extended canvas.
    - The csv reader is represented by the list of rows it yields, each
      row a list of fields; for the card scripts, which sniff the
      delimiter first, the input is that list or the error raised by the
      sniffer.  Command-line arguments and messages printed on the way are
      left out.
    - Font metrics ([stringWidth]), paragraph splitting ([simpleSplit])
      and the Code128 symbol are library code: they are variables of the
      sections below. *)

From Stdlib Require Import List NArith ZArith QArith Qminmax Bool Lia String Ascii.
Import ListNotations.

Local Open Scope list_scope.

(** ** Python strings *)

Module PyStr.

Definition char := N.
Definition str := list char.

(** An ASCII literal of the scripts, as code points. *)
Fixpoint lit (s : string) : str :=
  match s with
  | EmptyString => []
  | String a s' => N_of_ascii a :: lit s'
  end.

Definition SPACE : char := 32%N.
Definition HYPHEN_MINUS : char := 45%N.

(** [str.isspace] on one code point: the characters that [str.split()]
    and [str.strip()] treat as whitespace. *)
Definition isspace (c : char) : bool :=
  ((9 <=? c) && (c <=? 13)          (* \t \n \v \f \r *)
   || (28 <=? c) && (c <=? 32)      (* FS GS RS US, space *)
   || (c =? 133)                    (* U+0085 *)
   || (c =? 160)                    (* U+00A0 *)
   || (c =? 5760)                   (* U+1680 *)
   || (8192 <=? c) && (c <=? 8202)  (* U+2000 .. U+200A *)
   || (c =? 8232) || (c =? 8233)    (* U+2028, U+2029 *)
   || (c =? 8239)                   (* U+202F *)
   || (c =? 8287)                   (* U+205F *)
   || (c =? 12288))%N.              (* U+3000 *)

Arguments isspace : simpl never.

(** [s.lstrip()], [s.rstrip()], [s.strip()]. *)
Fixpoint lstrip (s : str) : str :=
  match s with
  | [] => []
  | c :: s' => if isspace c then lstrip s' else s
  end.

Definition rstrip (s : str) : str := rev (lstrip (rev s)).

Definition strip (s : str) : str := rstrip (lstrip s).

(** [s.split()]: maximal runs of non-whitespace characters.  [cur] is the
    run being read. *)
Fixpoint split_from (cur : str) (s : str) : list str :=
  match s with
  | [] => match cur with [] => [] | _ => [cur] end
  | c :: s' =>
      if isspace c
      then match cur with
           | [] => split_from [] s'
           | _ => cur :: split_from [] s'
           end
      else split_from (cur ++ [c]) s'
  end.

Definition split (s : str) : list str := split_from [] s.

(** [s.replace(a, b)] for one-character [a] and [b]. *)
Definition replace (a b : char) (s : str) : str :=
  map (fun c => if (c =? a)%N then b else c) s.

Arguments replace (a b)%_N_scope s.

(** Truth value of a string: [bool(s)]. *)
Definition truthy (s : str) : bool :=
  match s with [] => false | _ => true end.

(** [" ".join(ws)]. *)
Fixpoint join (ws : list str) : str :=
  match ws with
  | [] => []
  | [w] => w
  | w :: ws' => w ++ SPACE :: join ws'
  end.

Definition no_space (s : str) : bool :=
  forallb (fun c => negb (isspace c)) s.

(** A word: non-empty and free of whitespace. *)
Definition is_word (w : str) : Prop :=
  w <> [] /\ no_space w = true.

End PyStr.

Import PyStr.

(** ** Exceptions and program runs *)

Inductive exit_arg :=
| ExitCode (n : Z)          (* sys.exit(n) *)
| ExitMsg (msg : string).   (* raise SystemExit("...") *)

Inductive exn :=
| SystemExit (a : exit_arg)
| ValueError (msg : string)
| ZeroDivisionError
| CsvError                  (* csv.Error, raised by the csv module *)
| BarcodeError.             (* raised by the barcode library *)

Inductive result (A : Type) :=
| Ok (a : A)
| Raise (e : exn).

Arguments Ok {A} a.
Arguments Raise {A} e.

Definition bind {A B : Type} (r : result A) (k : A -> result B) : result B :=
  match r with
  | Ok a => k a
  | Raise e => Raise e
  end.

Notation "x <- r ;; k" := (bind r (fun x => k))
  (at level 61, r at next level, right associativity).

(** ** The reportlab canvas and the library interface *)

(** A [code128.Code128] object: its payload and its native size. *)
Record barcode := Barcode {
  bc_value : str;
  bc_width : Q;
  bc_height : Q
}.

Inductive op :=
| SetFillColor (color : string)
| SetStrokeColor (color : string)
| SetLineWidth (w : Q)
| SetFont (font : string) (size : Q)
| DrawString (x y : Q) (text : str)
| DrawCentredString (x y : Q) (text : str)
| SaveState
| Translate (dx dy : Q)
| Scale (sx sy : Q)
| DrawOn (bc : barcode) (x y : Q)
| RestoreState
| ShowPage.

Definition canvas := list op.

Definition Canvas : canvas := [].
Definition call (c : canvas) (o : op) : canvas := c ++ [o].

Definition setFillColor c color := call c (SetFillColor color).
Definition setStrokeColor c color := call c (SetStrokeColor color).
Definition setLineWidth c w := call c (SetLineWidth w).
Definition setFont c font size := call c (SetFont font size).
Definition drawString c x y text := call c (DrawString x y text).
Definition drawCentredString c x y text := call c (DrawCentredString x y text).
Definition saveState c := call c SaveState.
Definition translate c dx dy := call c (Translate dx dy).
Definition scale c sx sy := call c (Scale sx sy).
Definition drawOn bc c x y := call c (DrawOn bc x y).
Definition restoreState c := call c RestoreState.
Definition showPage c := call c ShowPage.

(** What the scripts use of reportlab without defining it. *)
Class Reportlab := {
  (** [canvas.stringWidth(text, fontName, fontSize)] *)
  stringWidth : str -> string -> Q -> Q;
  (** [simpleSplit(text, fontName, fontSize, maxWidth)] *)
  simpleSplit : str -> string -> Q -> Q -> list str;
  (** [code128.Code128(value, barHeight=.., barWidth=.., humanReadable=False)];
      [barWidth] is [None] where the script leaves the library default. *)
  Code128 : str -> Q -> option Q -> result barcode
}.

(** What a run of a script leaves behind. *)
Inductive effect :=
| MakeDirs                (* output_pdf.parent.mkdir(parents=True, exist_ok=True) *)
| SaveFile (doc : canvas). (* c.save() *)

Inductive termination :=
| Finished
| Uncaught (e : exn).

Record run := Run {
  status : termination;
  effects : list effect
}.


(** The document written by a run, if any. *)
Fixpoint saved (es : list effect) : option canvas :=
  match es with
  | [] => None
  | SaveFile doc :: _ => Some doc
  | _ :: es' => saved es'
  end.

(** Python's [min(a, b)] and [max(a, b)] on numbers. *)
Definition py_min (a b : Q) : Q := if Qle_bool a b then a else b.
Definition py_max (a b : Q) : Q := if Qle_bool b a then a else b.

(** [not row or all(not cell.strip() for cell in row)] *)
Definition is_blank_row (row : list str) : bool :=
  match row with
  | [] => true
  | _ => forallb (fun cell => negb (truthy (strip cell))) row
  end.

Definition inch : Q := 72.
Definition BULLET : char := 0x2022%N.

(** ** make_comic_4x3_labels.py *)

Module Comic.

Definition PAGE_W : Q := 4 * inch.
Definition PAGE_H : Q := 3 * inch.
Definition MARGIN : Q := 0.25 * inch.
Definition MAX_TEXT_W : Q := PAGE_W - 2 * MARGIN.

Definition normalize_text (s : str) : str :=
  if negb (truthy s) then []
  else
    let s := replace 0x2011 HYPHEN_MINUS s in  (* non-breaking hyphen *)
    let s := replace 0x2013 HYPHEN_MINUS s in  (* en dash *)
    let s := replace 0x2014 HYPHEN_MINUS s in  (* em dash *)
    let s := replace 0x00a0 SPACE s in         (* non-breaking space *)
    let s := replace 0x2010 HYPHEN_MINUS s in  (* hyphen *)
    s.

Section WithReportlab.
Context {lib : Reportlab}.

(** The [for w in words] loop of [wrap_text]; returns the canvas, the
    cursor and the pending [line]. *)
Fixpoint wrap_words (c : canvas) (words : list str) (line : str)
    (x y width leading : Q) (font_name : string) (font_size : Q)
    : canvas * Q * str :=
  match words with
  | [] => (c, y, line)
  | w :: words' =>
      let test := strip (line ++ [SPACE] ++ w) in
      if Qle_bool (stringWidth test font_name font_size) width
      then wrap_words c words' test x y width leading font_name font_size
      else
        let c := setFont c font_name font_size in
        let c := drawString c x y line in
        let y := y - leading in
        wrap_words c words' w x y width leading font_name font_size
  end.

Definition wrap_text (c : canvas) (text : str) (x y width leading : Q)
    (font_name : string) (font_size : Q) : canvas * Q :=
  let words := split text in
  let '(c, y, line) :=
    wrap_words c words [] x y width leading font_name font_size in
  if truthy line
  then
    let c := setFont c font_name font_size in
    let c := drawString c x y line in
    (c, y - leading)
  else (c, y).

(** [for b in bullets: ...] *)
Fixpoint draw_bullets (c : canvas) (bullets : list str) (x y : Q)
    : canvas * Q :=
  match bullets with
  | [] => (c, y)
  | b :: bullets' =>
      let line := BULLET :: SPACE :: strip b in
      let '(c, y) :=
        wrap_text c line x y MAX_TEXT_W 11 "Helvetica" 11 in
      let y := y - 3 in
      draw_bullets c bullets' x y
  end.

(** [if publisher.strip(): ...] *)
Definition draw_publisher (c : canvas) (publisher : str) (x y : Q)
    : canvas * Q :=
  if truthy (strip publisher)
  then
    let '(c, y) :=
      wrap_text c (BULLET :: lit " Publisher: " ++ strip publisher)
        x y MAX_TEXT_W 11 "Helvetica-Oblique" 11 in
    (c, y - 3)
  else (c, y).

(** The part of [draw_label] from the price line to the footer. *)
Definition draw_price_and_barcode (c : canvas) (x y : Q)
    (price_display inv_id barcode_num : str) : result canvas :=
  let c := setFont c "Helvetica-Bold" 12 in
  let c := drawString c x y (BULLET :: lit " Price: ") in
  let price_x := x + stringWidth (BULLET :: lit " Price: ") "Helvetica-Bold" 12 in
  let c := drawString c price_x y price_display in
  let y := y - 15 in
  let c := setFont c "Helvetica-Bold" 12 in
  let c := drawString c x y (lit "Inventory ID: " ++ inv_id) in
  let y := y - 12 in
  let y := y - 6 in
  let c := setFont c "Helvetica" 9 in
  let num_text := barcode_num in
  let c := drawCentredString c (PAGE_W / 2) y num_text in
  let y := y - 6 in
  let target_w := 2.6 * inch in
  bc <- Code128 barcode_num (0.30 * inch) None ;;
  sc <- (if Qeq_bool (bc_width bc) 0 then Raise ZeroDivisionError
         else Ok (py_min (target_w / bc_width bc) 1.8)) ;;
  let bc_x := (PAGE_W - bc_width bc * sc) / 2 in
  let bc_y := y - bc_height bc * sc in
  let c := saveState c in
  let c := translate c bc_x bc_y in
  let c := scale c sc sc in
  let c := drawOn bc c 0 0 in
  let c := restoreState c in
  let c := setFont c "Helvetica-Bold" 10 in
  let bottom_text := inv_id ++ lit "   " ++ price_display in
  let c := drawCentredString c (PAGE_W / 2) (bc_y - 12) bottom_text in
  Ok c.

Definition draw_label (c : canvas) (row : list str) : result canvas :=
  match map normalize_text row with
  | [title; b1; b2; b3; publisher; price; inv_id; barcode_num] =>
      let price_display := strip price in
      let x := MARGIN in
      let y := PAGE_H - MARGIN in
      let c := setFont c "Helvetica-Bold" 12 in
      let '(c, y) :=
        wrap_text c title x y MAX_TEXT_W 13 "Helvetica-Bold" 12 in
      let y := y + 2 in
      let y := y - 3 in
      let c := setFont c "Helvetica" 11 in
      let bullets :=
        filter (fun b => truthy b && truthy (strip b)) [b1; b2; b3] in
      let '(c, y) := draw_bullets c bullets x y in
      let '(c, y) := draw_publisher c publisher x y in
      draw_price_and_barcode c x y price_display inv_id barcode_num
  | _ => Raise (ValueError "unpack")
  end.

Definition SCHEMA_MSG : string :=
  "Each row must have 8 columns (Title, Bullet1, Bullet2, Bullet3, Publisher, Price, Inventory ID, Barcode).".

(** [for row in reader: ...] *)
Fixpoint draw_rows (c : canvas) (reader : list (list str)) : result canvas :=
  match reader with
  | [] => Ok c
  | row :: reader' =>
      if is_blank_row row then draw_rows c reader'
      else if (List.length row <? 8)%nat then Raise (ValueError SCHEMA_MSG)
      else
        c <- draw_label c (firstn 8 row) ;;
        let c := showPage c in
        draw_rows c reader'
  end.

(** [main]; [inp] is the content of the input file as the csv reader
    yields it, [None] when the file does not exist. *)
Definition main (inp : option (list (list str))) : run :=
  match inp with
  | None => Run (Uncaught (SystemExit (ExitCode 1))) []
  | Some reader =>
      let c := Canvas in
      match draw_rows c reader with
      | Raise e => Run (Uncaught e) []
      | Ok c => Run Finished [SaveFile c]
      end
  end.

End WithReportlab.

End Comic.

(** ** make_card_2x2_labels.py *)

Module Card.

Definition PAGE_W : Q := 2 * inch.
Definition PAGE_H : Q := 2 * inch.

Definition TITLE_FONT : string := "Helvetica-Bold".
Definition BODY_FONT : string := "Helvetica".
Definition TITLE_SIZE : Q := 10.
Definition BODY_SIZE : Q := 9.
Definition LINE_GAP : Q := 3.
Definition TOP_PADDING : Q := 8.
Definition LEFT_MARGIN : Q := 8.
Definition RIGHT_MARGIN : Q := 8.

Definition BARCODE_HEIGHT : Q := 0.45 * inch.
Definition BAR_GAP : Q := 6.
Definition TEXT_UNDER_BAR_GAP : Q := 2.

(** The dict appended to [rows] by [read_rows]. *)
Record label := Label {
  title : str;
  b1 : str;
  b2 : str;
  price : str;
  inv : str;
  barcode : str
}.

(** [while len(raw) < 7: raw.append("")], at most [fuel] iterations. *)
Fixpoint pad_while (fuel : nat) (raw : list str) : list str :=
  match fuel with
  | O => raw
  | S fuel' =>
      if (List.length raw <? 7)%nat then pad_while fuel' (raw ++ [[]])
      else raw
  end.

(** [for raw in reader: ...], with [rows] the list built so far. *)
Fixpoint read_loop (reader : list (list str)) (rows : list label)
    : result (list label) :=
  match reader with
  | [] => Ok rows
  | raw :: reader' =>
      if is_blank_row raw then read_loop reader' rows
      else
        let raw := pad_while 7 raw in
        match map strip (firstn 7 raw) with
        | [title; b1; b2; _price_src; final_price; inv_id; barcode_val] =>
            read_loop reader'
              (rows ++ [Label title b1 b2 final_price inv_id barcode_val])
        | _ => Raise (ValueError "unpack")
        end
  end.

(** [read_rows]; [sniffed] is what the csv module makes of the file: the
    rows read with the sniffed dialect, or the error it raises when no
    delimiter can be determined. *)
Definition read_rows (sniffed : result (list (list str)))
    : result (list label) :=
  reader <- sniffed ;;
  read_loop reader [].

Section WithReportlab.
Context {lib : Reportlab}.

Definition wrap_text (text : str) (fontName : string) (fontSize max_width : Q)
    : list str :=
  simpleSplit text fontName fontSize max_width.

(** [for i, line in enumerate(title_lines): ...] from index [i] on. *)
Fixpoint draw_title_lines (c : canvas) (lines : list str) (i : nat) (x y : Q)
    : canvas * Q :=
  match lines with
  | [] => (c, y)
  | line :: lines' =>
      let y := y - (if (i =? 0)%nat then TITLE_SIZE else TITLE_SIZE + 1) in
      let c := drawString c x y line in
      draw_title_lines c lines' (S i) x y
  end.

(** [for i, line in enumerate(lines): ...] from index [i] on; [len_lines]
    is [len(lines)] of the whole list. *)
Fixpoint draw_bullet_lines (c : canvas) (lines : list str) (i len_lines : nat)
    (x y : Q) : canvas * Q :=
  match lines with
  | [] => (c, y)
  | line :: lines' =>
      let y :=
        y - (BODY_SIZE + (if (i =? len_lines - 1)%nat then LINE_GAP else 1)) in
      let c := drawString c x y line in
      draw_bullet_lines c lines' (S i) len_lines x y
  end.

(** [for text in bullets: ...] *)
Fixpoint draw_bullets (c : canvas) (bullets : list str) (x usable_w y : Q)
    : canvas * Q :=
  match bullets with
  | [] => (c, y)
  | text :: bullets' =>
      let lines := wrap_text text BODY_FONT BODY_SIZE usable_w in
      let '(c, y) := draw_bullet_lines c lines 0 (List.length lines) x y in
      draw_bullets c bullets' x usable_w y
  end.

Definition bullet (line : str) : str := BULLET :: SPACE :: line.

(** [draw_label] up to and including [y -= BAR_GAP]. *)
Definition draw_description (c : canvas) (row : label) : canvas * Q :=
  let c := setFillColor c "black" in
  let c := setStrokeColor c "black" in
  let x := LEFT_MARGIN in
  let usable_w := PAGE_W - LEFT_MARGIN - RIGHT_MARGIN in
  let y := PAGE_H - TOP_PADDING in
  let c := setFont c TITLE_FONT TITLE_SIZE in
  let title_lines := wrap_text (title row) TITLE_FONT TITLE_SIZE usable_w in
  let '(c, y) := draw_title_lines c title_lines 0 x y in
  let c := setFont c BODY_FONT BODY_SIZE in
  let bullets :=
    [ bullet (b1 row);
      bullet (b2 row);
      bullet (lit "Price: " ++ price row);
      bullet (lit "ID: " ++ inv row) ] in
  let '(c, y) := draw_bullets c bullets x usable_w y in
  let y := y - BAR_GAP in
  (c, y).

Definition draw_label (c : canvas) (row : label) : result canvas :=
  let '(c, y) := draw_description c row in
  bc <- Code128 (barcode row) BARCODE_HEIGHT (Some (0.0125 * inch)) ;;
  let bc_w := bc_width bc in
  let bc_x := (PAGE_W - bc_w) / 2 in
  let bc_y := py_max 8 (y - BARCODE_HEIGHT) in
  let c := drawOn bc c bc_x bc_y in
  let footer_text := inv row ++ lit "    " ++ price row in
  let c := setFont c TITLE_FONT BODY_SIZE in
  let c :=
    drawCentredString c (PAGE_W / 2) (bc_y - TEXT_UNDER_BAR_GAP - BODY_SIZE)
      footer_text in
  Ok c.

(** [for row in rows: draw_label(c, row); c.showPage()] *)
Fixpoint draw_rows (c : canvas) (rows : list label) : result canvas :=
  match rows with
  | [] => Ok c
  | row :: rows' =>
      c <- draw_label c row ;;
      let c := showPage c in
      draw_rows c rows'
  end.

Definition NO_ROWS_MSG : string :=
  "[error] No rows parsed. Check your separators (tab or comma).".

(** [main]; [data_file] is [None] when the input file does not exist,
    and otherwise what the csv module makes of it (see [read_rows]).  The
    path that ends the first message is left out. *)
Definition main (data_file : option (result (list (list str)))) : run :=
  match data_file with
  | None =>
      Run (Uncaught (SystemExit (ExitMsg "[error] Input file not found"))) []
  | Some sniffed =>
      match read_rows sniffed with
      | Raise e => Run (Uncaught e) []
      | Ok rows =>
          match rows with
          | [] => Run (Uncaught (SystemExit (ExitMsg NO_ROWS_MSG))) []
          | _ =>
              let c := Canvas in
              match draw_rows c rows with
              | Raise e => Run (Uncaught e) [MakeDirs]
              | Ok c => Run Finished [MakeDirs; SaveFile c]
              end
          end
      end
  end.

End WithReportlab.

End Card.

(** ** make_pokemon_2x2_labels.py *)

Module Pokemon.

Definition PAGE_W : Q := 2 * inch.
Definition PAGE_H : Q := 2 * inch.

Definition TITLE_FONT : string := "Helvetica-Bold".
Definition BODY_FONT : string := "Helvetica".
Definition TITLE_SIZE : Q := 10.
Definition BODY_SIZE : Q := 9.
Definition LINE_GAP : Q := 3.
Definition TOP_PADDING : Q := 8.
Definition LEFT_MARGIN : Q := 8.
Definition RIGHT_MARGIN : Q := 8.

Definition BARCODE_HEIGHT : Q := 0.45 * inch.
Definition BAR_GAP : Q := 6.
Definition TEXT_UNDER_BAR_GAP : Q := 2.

(** The dict appended to [rows] by [read_rows]. *)
Record label := Label {
  title : str;
  b1 : str;
  b2 : str;
  price : str;
  inv : str;
  barcode : str
}.

(** [while len(raw) < 7: raw.append("")], at most [fuel] iterations. *)
Fixpoint pad_while (fuel : nat) (raw : list str) : list str :=
  match fuel with
  | O => raw
  | S fuel' =>
      if (List.length raw <? 7)%nat then pad_while fuel' (raw ++ [[]])
      else raw
  end.

(** [for raw in reader: ...], with [rows] the list built so far. *)
Fixpoint read_loop (reader : list (list str)) (rows : list label)
    : result (list label) :=
  match reader with
  | [] => Ok rows
  | raw :: reader' =>
      if is_blank_row raw then read_loop reader' rows
      else
        let raw := pad_while 7 raw in
        match map strip (firstn 7 raw) with
        | [title; b1; b2; _price_src; final_price; inv_id; barcode_val] =>
            read_loop reader'
              (rows ++ [Label title b1 b2 final_price inv_id barcode_val])
        | _ => Raise (ValueError "unpack")
        end
  end.

(** [read_rows]; [sniffed] is what the csv module makes of the file: the
    rows read with the sniffed dialect, or the error it raises when no
    delimiter can be determined. *)
Definition read_rows (sniffed : result (list (list str)))
    : result (list label) :=
  reader <- sniffed ;;
  read_loop reader [].

Section WithReportlab.
Context {lib : Reportlab}.

Definition wrap_text (text : str) (fontName : string) (fontSize max_width : Q)
    : list str :=
  simpleSplit text fontName fontSize max_width.

(** [for i, line in enumerate(title_lines): ...] from index [i] on. *)
Fixpoint draw_title_lines (c : canvas) (lines : list str) (i : nat) (x y : Q)
    : canvas * Q :=
  match lines with
  | [] => (c, y)
  | line :: lines' =>
      let y := y - (if (i =? 0)%nat then TITLE_SIZE else TITLE_SIZE + 1) in
      let c := drawString c x y line in
      draw_title_lines c lines' (S i) x y
  end.

(** [for i, line in enumerate(lines): ...] from index [i] on; [len_lines]
    is [len(lines)] of the whole list. *)
Fixpoint draw_bullet_lines (c : canvas) (lines : list str) (i len_lines : nat)
    (x y : Q) : canvas * Q :=
  match lines with
  | [] => (c, y)
  | line :: lines' =>
      let y :=
        y - (BODY_SIZE + (if (i =? len_lines - 1)%nat then LINE_GAP else 1)) in
      let c := drawString c x y line in
      draw_bullet_lines c lines' (S i) len_lines x y
  end.

(** [for text in bullets: ...] *)
Fixpoint draw_bullets (c : canvas) (bullets : list str) (x usable_w y : Q)
    : canvas * Q :=
  match bullets with
  | [] => (c, y)
  | text :: bullets' =>
      let lines := wrap_text text BODY_FONT BODY_SIZE usable_w in
      let '(c, y) := draw_bullet_lines c lines 0 (List.length lines) x y in
      draw_bullets c bullets' x usable_w y
  end.

Definition bullet (line : str) : str := BULLET :: SPACE :: line.

(** [draw_label] up to and including [y -= BAR_GAP]. *)
Definition draw_description (c : canvas) (row : label) : canvas * Q :=
  let c := setFillColor c "black" in
  let c := setStrokeColor c "black" in
  let c := setLineWidth c 0.5 in
  let x := LEFT_MARGIN in
  let usable_w := PAGE_W - LEFT_MARGIN - RIGHT_MARGIN in
  let y := PAGE_H - TOP_PADDING in
  let c := setFont c TITLE_FONT TITLE_SIZE in
  let title_lines := wrap_text (title row) TITLE_FONT TITLE_SIZE usable_w in
  let '(c, y) := draw_title_lines c title_lines 0 x y in
  let c := setFont c BODY_FONT BODY_SIZE in
  let bullets :=
    [ bullet (b1 row);
      bullet (b2 row);
      bullet (lit "Price: " ++ price row);
      bullet (lit "ID: " ++ inv row) ] in
  let '(c, y) := draw_bullets c bullets x usable_w y in
  let y := y - BAR_GAP in
  (c, y).

Definition draw_label (c : canvas) (row : label) : result canvas :=
  let '(c, y) := draw_description c row in
  bc <- Code128 (barcode row) BARCODE_HEIGHT (Some (0.0125 * inch)) ;;
  let bc_w := bc_width bc in
  let bc_x := (PAGE_W - bc_w) / 2 in
  let bc_y := py_max 8 (y - BARCODE_HEIGHT) in
  let c := drawOn bc c bc_x bc_y in
  let footer_text := inv row ++ lit "    " ++ price row in
  let c := setFont c TITLE_FONT BODY_SIZE in
  let c :=
    drawCentredString c (PAGE_W / 2) (bc_y - TEXT_UNDER_BAR_GAP - BODY_SIZE)
      footer_text in
  Ok c.

(** [for row in rows: draw_label(c, row); c.showPage()] *)
Fixpoint draw_rows (c : canvas) (rows : list label) : result canvas :=
  match rows with
  | [] => Ok c
  | row :: rows' =>
      c <- draw_label c row ;;
      let c := showPage c in
      draw_rows c rows'
  end.

Definition NO_ROWS_MSG : string :=
  "No rows parsed. Check your separators (tab or comma).".

(** [main]; [data_file] is [None] when the input file does not exist,
    and otherwise what the csv module makes of it (see [read_rows]). *)
Definition main (data_file : option (result (list (list str)))) : run :=
  match data_file with
  | None =>
      Run (Uncaught (SystemExit (ExitMsg "Data file not found: labels_input.txt"))) []
  | Some sniffed =>
      match read_rows sniffed with
      | Raise e => Run (Uncaught e) []
      | Ok rows =>
          match rows with
          | [] => Run (Uncaught (SystemExit (ExitMsg NO_ROWS_MSG))) []
          | _ =>
              let c := Canvas in
              match draw_rows c rows with
              | Raise e => Run (Uncaught e) []
              | Ok c => Run Finished [SaveFile c]
              end
          end
      end
  end.

End WithReportlab.

End Pokemon.

(** ** Reference definitions, written from the specification

    These follow the words of the specification; the theorems below
    compare them with the functions of the scripts. *)

(** The strings drawn left-aligned on a canvas, in drawing order. *)
Fixpoint drawn_lines (c : canvas) : list str :=
  match c with
  | [] => []
  | DrawString _ _ text :: c' => text :: drawn_lines c'
  | _ :: c' => drawn_lines c'
  end.

(** The number of finished pages of a canvas. *)
Fixpoint page_count (c : canvas) : nat :=
  match c with
  | [] => 0
  | ShowPage :: c' => S (page_count c')
  | _ :: c' => page_count c'
  end.

(** Greedy word-boundary wrapping: [current] holds the words of the
    current line.  A word joins the current line while the tentative line
    fits; otherwise the current line is flushed and the word starts the
    next one; a non-empty current line is emitted last. *)
Fixpoint greedy_lines (fits : str -> bool) (current words : list str)
    : list str :=
  match words with
  | [] => match current with [] => [] | _ => [join current] end
  | w :: words' =>
      if fits (join (current ++ [w]))
      then greedy_lines fits (current ++ [w]) words'
      else join current :: greedy_lines fits [w] words'
  end.

(** A string fits when it is at most [maxWidth] wide. *)
Definition fits_width {lib : Reportlab} (font : string) (size maxWidth : Q)
    (s : str) : bool :=
  Qle_bool (stringWidth s font size) maxWidth.

Definition greedy_wrap {lib : Reportlab} (text : str) (font : string)
    (size maxWidth : Q) : list str :=
  greedy_lines (fits_width font size maxWidth) [] (split text).

(** The character normalization of the comic labels, as a table. *)
Definition normalize_char (c : char) : char :=
  if ((c =? 0x2011) || (c =? 0x2013) || (c =? 0x2014) || (c =? 0x2010))%N
  then HYPHEN_MINUS
  else if (c =? 0x00a0)%N then SPACE
  else c.

(** [s'] is [s] with some of the normalized characters already replaced
    by their ASCII counterparts. *)
Definition ascii_variant (s s' : str) : Prop :=
  Forall2 (fun a b => b = a \/ b = normalize_char a) s s'.

(** A field is blank when it is empty or whitespace-only. *)
Definition is_blank (s : str) : bool := forallb isspace s.

(** One optional text block of the comic label ([label] is empty for a
    bullet and ["Publisher: "] for the publisher): a blank field leaves
    canvas and cursor as they are; any other is wrapped and drawn behind
    the bullet glyph, stripped, and followed by a 3 point gap. *)
Definition emit_field {lib : Reportlab} (label : str) (font : string)
    (x : Q) (st : canvas * Q) (field : str) : canvas * Q :=
  if is_blank field then st
  else
    let '(c, y) :=
      Comic.wrap_text (fst st)
        (BULLET :: SPACE :: label ++ strip (Comic.normalize_text field))
        x (snd st) Comic.MAX_TEXT_W 11 font 11 in
    (c, y - 3).

(** Rows of the input that are not blank, in input order. *)
Definition non_blank_rows (reader : list (list str)) : list (list str) :=
  filter (fun row => negb (is_blank_row row)) reader.

(** ** Auxiliary predicates *)

(** A string without whitespace at its ends. *)
Definition starts_clean (s : str) : Prop :=
  match s with
  | [] => True
  | c :: _ => isspace c = false
  end.

Definition ends_clean (s : str) : Prop := starts_clean (rev s).

(** [wrap_text] only appends font selections and left-aligned strings. *)
Definition text_call (o : op) : Prop :=
  match o with
  | SetFont _ _ | DrawString _ _ _ => True
  | _ => False
  end.

(** What a line of the greedy algorithm is made of: whole words of the
    input, and more than one of them only if the line fits. *)
Definition line_of_words (fits : str -> bool) (pool : list str) (line : str)
    : Prop :=
  exists g, line = join g /\ Forall is_word g /\ incl g pool
            /\ ((List.length g <= 1)%nat \/ fits (join g) = true).

(** The record for a raw row, field by field: the stripped columns in
    order, the fourth one (price source) left out, a missing column read
    as the empty string. *)
Definition card_record (raw : list str) : Card.label :=
  Card.Label (strip (nth 0 raw [])) (strip (nth 1 raw []))
    (strip (nth 2 raw [])) (strip (nth 4 raw []))
    (strip (nth 5 raw [])) (strip (nth 6 raw [])).

Definition pokemon_record (raw : list str) : Pokemon.label :=
  Pokemon.Label (strip (nth 0 raw [])) (strip (nth 1 raw []))
    (strip (nth 2 raw [])) (strip (nth 4 raw []))
    (strip (nth 5 raw [])) (strip (nth 6 raw [])).

(** [raw] padded on the right with empty strings to 7 fields. *)
Definition padded (raw : list str) : list str :=
  raw ++ repeat [] (7 - List.length raw).

(** Every record is drawn on the canvas and its page is closed, in
    order. *)
Fixpoint render_pages {lib : Reportlab} (c : canvas)
    (records : list (list str)) : result canvas :=
  match records with
  | [] => Ok c
  | record :: records' =>
      c <- Comic.draw_label c record ;;
      render_pages (showPage c) records'
  end.

Definition comic_row : list str :=
  [lit "Amazing Spider-Man #300"; lit "First Venom"; lit "  "; lit "";
   lit "Marvel"; lit "450.00"; lit "CB-0001"; lit "760123456789"].

(** [comic_row] as typed with an en dash in the title and a non-breaking
    space in the first bullet. *)
Definition comic_row_typographic : list str :=
  [lit "Amazing Spider" ++ [0x2013%N] ++ lit "Man #300";
   lit "First" ++ [0x00a0%N] ++ lit "Venom"; lit "  "; lit "";
   lit "Marvel"; lit "450.00"; lit "CB-0001"; lit "760123456789"].

(** A comic row with only 7 columns. *)
Definition comic_row_short : list str :=
  [lit "Batman #1"; lit "Key issue"; lit ""; lit "DC"; lit "99.00";
   lit "CB-0002"; lit "760123456790"].



(** ** Reference definitions for the layout

    Closed forms of what the drawing loops do, compared with the loops in
    the last part of the file. *)

(** Draw [lines] one below the other, [leading] apart, selecting the font
    before each line; returns the canvas and the cursor below the last
    line. *)
Fixpoint stack_lines (c : canvas) (lines : list str) (x y leading : Q)
    (font : string) (size : Q) : canvas * Q :=
  match lines with
  | [] => (c, y)
  | line :: lines' =>
      stack_lines (drawString (setFont c font size) x y line) lines'
        x (y - leading) leading font size
  end.

(** The number [n] of a count of lines, as a rational. *)
Definition count (n : nat) : Q := inject_Z (Z.of_nat n).

(** The five characters that [normalize_text] replaces. *)
Definition typographic (c : char) : bool :=
  ((c =? 0x2011) || (c =? 0x2013) || (c =? 0x2014) || (c =? 0x00a0)
   || (c =? 0x2010))%N.

(** What the comic [draw_label] draws for a row on a fresh canvas
    (nothing if it raises). *)
Definition label_ops {lib : Reportlab} (row : list str) : list op :=
  match Comic.draw_label Canvas (firstn 8 row) with
  | Ok ops => ops
  | Raise _ => []
  end.

(** How far the cursor of a card label moves down for a title of [n]
    lines and for a bullet of [n] lines. *)
Definition title_drop (n : nat) : Q :=
  match n with
  | O => 0
  | S n' => 10 + 11 * count n'
  end.

Definition bullet_drop (n : nat) : Q :=
  match n with
  | O => 0
  | S n' => 10 * count n' + 12
  end.

(** How far the cursor of a comic label moves down for one bullet or
    publisher field. *)
Definition field_drop {lib : Reportlab} (label : str) (font : string)
    (field : str) : Q :=
  if is_blank field then 0
  else
    11 * count (List.length
                  (greedy_wrap
                     (BULLET :: SPACE :: label
                      ++ strip (Comic.normalize_text field))
                     font 11 Comic.MAX_TEXT_W))
    + 3.

(** The sum of a list of rationals. *)
Definition total (qs : list Q) : Q := fold_right Qplus 0 qs.

(** The part of the card [draw_description] that follows the colour
    settings, on a canvas [k]: title, bullets and the gap before the
    barcode. *)
Definition card_text_block {lib : Reportlab} (k : canvas) (row : Card.label)
    : canvas * Q :=
  let x := Card.LEFT_MARGIN in
  let usable_w := Card.PAGE_W - Card.LEFT_MARGIN - Card.RIGHT_MARGIN in
  let y := Card.PAGE_H - Card.TOP_PADDING in
  let c := setFont k Card.TITLE_FONT Card.TITLE_SIZE in
  let title_lines :=
    Card.wrap_text (Card.title row) Card.TITLE_FONT Card.TITLE_SIZE
      usable_w in
  let '(c, y) := Card.draw_title_lines c title_lines 0 x y in
  let c := setFont c Card.BODY_FONT Card.BODY_SIZE in
  let bullets :=
    [ Card.bullet (Card.b1 row);
      Card.bullet (Card.b2 row);
      Card.bullet (lit "Price: " ++ Card.price row);
      Card.bullet (lit "ID: " ++ Card.inv row) ] in
  let '(c, y) := Card.draw_bullets c bullets x usable_w y in
  let y := y - Card.BAR_GAP in
  (c, y).

(** The part of the card [draw_label] that follows the description, on a
    canvas [k] with the cursor at [y]: barcode and footer. *)
Definition card_barcode_block {lib : Reportlab} (k : canvas) (y : Q)
    (row : Card.label) : result canvas :=
  bc <- Code128 (Card.barcode row) Card.BARCODE_HEIGHT
          (Some (0.0125 * inch)) ;;
  let bc_w := bc_width bc in
  let bc_x := (Card.PAGE_W - bc_w) / 2 in
  let bc_y := py_max 8 (y - Card.BARCODE_HEIGHT) in
  let c := drawOn bc k bc_x bc_y in
  let footer_text := Card.inv row ++ lit "    " ++ Card.price row in
  let c := setFont c Card.TITLE_FONT Card.BODY_SIZE in
  let c :=
    drawCentredString c (Card.PAGE_W / 2)
      (bc_y - Card.TEXT_UNDER_BAR_GAP - Card.BODY_SIZE) footer_text in
  Ok c.

(** The texts of the four bullets of a card label. *)
Definition card_bullets (row : Card.label) : list str :=
  [ BULLET :: SPACE :: Card.b1 row;
    BULLET :: SPACE :: Card.b2 row;
    BULLET :: SPACE :: lit "Price: " ++ Card.price row;
    BULLET :: SPACE :: lit "ID: " ++ Card.inv row ].

(** The record of the Pokemon script as a record of the card script. *)
Definition to_card (row : Pokemon.label) : Card.label :=
  {| Card.title := Pokemon.title row;
     Card.b1 := Pokemon.b1 row;
     Card.b2 := Pokemon.b2 row;
     Card.price := Pokemon.price row;
     Card.inv := Pokemon.inv row;
     Card.barcode := Pokemon.barcode row |}.

(** All fields of a card record are free of whitespace at their ends. *)
Definition stripped (s : str) : Prop := strip s = s.

Definition card_record_stripped (r : Card.label) : Prop :=
  stripped (Card.title r) /\ stripped (Card.b1 r) /\ stripped (Card.b2 r)
  /\ stripped (Card.price r) /\ stripped (Card.inv r)
  /\ stripped (Card.barcode r).

(** ** A stand-in library and sample inputs *)

(** A fixed-pitch stand-in for the library, used to run the scripts on
    concrete inputs: every glyph is half an em wide, paragraphs are split
    greedily, and a Code128 symbol has 11 modules per character plus 35
    for start, checksum and stop. *)
Definition fixed_pitch : Reportlab := {|
  stringWidth := fun s _ size =>
    inject_Z (Z.of_nat (List.length s)) * size * 0.5;
  simpleSplit := fun text _ size maxWidth =>
    greedy_lines
      (fun s => Qle_bool (inject_Z (Z.of_nat (List.length s)) * size * 0.5)
                  maxWidth)
      [] (split text);
  Code128 := fun value barHeight barWidth =>
    Ok (Barcode value
          (inject_Z (11 * Z.of_nat (List.length value) + 35)
           * match barWidth with Some w => w | None => 0.0075 * inch end)
          barHeight)
|}.

Definition charizard_row : list str :=
  [lit "Charizard"; lit "Holo Rare"; lit "1st Edition"; lit "eBay";
   lit "299.99"; lit "INV-001"; lit "012345678905"].

Definition long_title_card : Card.label :=
  {| Card.title :=
       lit "aaaaaaaaaaaaaaaaaaaaaaaaaaaaa bbbbbbbbbbbbbbbbbbbbbbbbbbbb cccccccccccccccccccccccccc ddddddddddddddddddddddd eeeeeeeeeeeeeeeeeeeeeeeeeeee fffffffffffffffffffffff ggggggggggggggggggggggg hhhhhhhhhhhhhhhhhhhhhhhhhhh iiiiiiiiiiiiiiiiiiiiiiiiiiii jjjjjjjjjjjjjjjjjjjjjjjj kkkkkkkkkkkkkkkkkkkkkkkk lllllllllllllllllllll mmmmmmmmmmmmmmmmmmmmmmmmm";
     Card.b1 := lit "x";
     Card.b2 := lit "y";
     Card.price := lit "1";
     Card.inv := lit "I";
     Card.barcode := lit "0123" |}.

(** A row whose only non-blank column is the eighth. *)
Definition late_column_row : list str :=
  [lit ""; lit " "; lit ""; lit ""; lit ""; lit ""; lit ""; lit "note"].

(** The canvas of a result, empty for an error. *)
Definition drawn (r : result canvas) : canvas :=
  match r with
  | Ok c => c
  | Raise _ => []
  end.

(** The records of a result, none for an error. *)
Definition drawn_records (r : result (list Card.label)) : list Card.label :=
  match r with
  | Ok records => records
  | Raise _ => []
  end.

(** ** Facts about Python strings *)

Section StrFacts.

Lemma lstrip_clean s : starts_clean s -> lstrip s = s.
Proof.
  destruct s as [|c s]; simpl; [reflexivity|].
  intros ->. reflexivity.
Qed.

Lemma rstrip_clean s : ends_clean s -> rstrip s = s.
Proof.
  unfold ends_clean, rstrip. intros H.
  rewrite (lstrip_clean _ H). apply rev_involutive.
Qed.

Lemma strip_clean s : starts_clean s -> ends_clean s -> strip s = s.
Proof.
  intros Hs He. unfold strip.
  rewrite (lstrip_clean _ Hs). now apply rstrip_clean.
Qed.

Lemma no_space_rev w :
  forallb (fun c => negb (isspace c)) (rev w)
  = forallb (fun c => negb (isspace c)) w.
Proof.
  induction w as [|c w IH]; simpl; [reflexivity|].
  rewrite forallb_app, IH. simpl. rewrite andb_true_r. apply andb_comm.
Qed.

Lemma word_starts_clean w : is_word w -> starts_clean w.
Proof.
  intros [_ H]. destruct w as [|c w]; simpl in *; [exact I|].
  apply andb_true_iff in H. destruct H as [H _].
  now apply negb_true_iff in H.
Qed.

Lemma word_rev w : is_word w -> is_word (rev w).
Proof.
  intros [Hne H]. split.
  - intros E. apply Hne. rewrite <- (rev_involutive w), E. reflexivity.
  - now rewrite no_space_rev.
Qed.

Lemma word_ends_clean w : is_word w -> ends_clean w.
Proof.
  intros H. apply word_starts_clean. now apply word_rev.
Qed.

Lemma strip_word w : is_word w -> strip w = w.
Proof.
  intros H. apply strip_clean; [now apply word_starts_clean|now apply word_ends_clean].
Qed.

Lemma starts_clean_app s t : s <> [] -> starts_clean s -> starts_clean (s ++ t).
Proof.
  destruct s as [|c s]; [congruence|]. simpl. auto.
Qed.

Lemma ends_clean_app s t : t <> [] -> ends_clean t -> ends_clean (s ++ t).
Proof.
  unfold ends_clean. intros Hne H. rewrite rev_app_distr.
  apply starts_clean_app; [|exact H].
  intros E. apply Hne. rewrite <- (rev_involutive t), E. reflexivity.
Qed.

Lemma join_cons w ws :
  ws <> [] -> join (w :: ws) = w ++ SPACE :: join ws.
Proof.
  destruct ws; [congruence|reflexivity].
Qed.

Lemma join_snoc ws w :
  ws <> [] -> join (ws ++ [w]) = join ws ++ SPACE :: w.
Proof.
  induction ws as [|a ws IH]; [congruence|]. intros _.
  destruct ws as [|b ws].
  - reflexivity.
  - change ((a :: b :: ws) ++ [w]) with (a :: (b :: ws) ++ [w]).
    rewrite join_cons by (simpl; discriminate).
    rewrite IH by discriminate. rewrite (join_cons a (b :: ws)) by discriminate.
    rewrite <- app_assoc. reflexivity.
Qed.

Lemma join_nonempty ws : ws <> [] -> Forall is_word ws -> join ws <> [].
Proof.
  destruct ws as [|w ws]; [congruence|]. intros _ H.
  inversion H as [|? ? [Hw _] _]; subst.
  destruct ws; simpl; [exact Hw|].
  destruct w; [congruence|discriminate].
Qed.

Lemma join_starts_clean ws : Forall is_word ws -> starts_clean (join ws).
Proof.
  destruct ws as [|w ws]; [exact (fun _ => I)|]. intros H.
  inversion H as [|? ? Hw _]; subst.
  destruct ws.
  - now apply word_starts_clean.
  - rewrite join_cons by discriminate.
    apply starts_clean_app; [apply Hw|now apply word_starts_clean].
Qed.

Lemma join_ends_clean ws : Forall is_word ws -> ends_clean (join ws).
Proof.
  induction ws as [|w ws IH]; [exact (fun _ => I)|]. intros H.
  inversion H as [|? ? Hw Hws]; subst.
  destruct ws as [|v ws].
  - now apply word_ends_clean.
  - rewrite join_cons by discriminate.
    apply ends_clean_app with (t := SPACE :: join (v :: ws)); [discriminate|].
    change (SPACE :: join (v :: ws)) with ([SPACE] ++ join (v :: ws)).
    apply ends_clean_app; [|now apply IH].
    apply join_nonempty; [discriminate|exact Hws].
Qed.

(** The tentative line of [wrap_text] is the current words and the next
    word joined by single spaces. *)
Lemma strip_tentative cur w :
  Forall is_word cur -> is_word w ->
  strip (join cur ++ [SPACE] ++ w) = join (cur ++ [w]).
Proof.
  intros Hcur Hw. destruct cur as [|a cur].
  - simpl. unfold strip.
    assert (E : lstrip (SPACE :: w) = w).
    { simpl. now apply lstrip_clean, word_starts_clean. }
    rewrite E. now apply rstrip_clean, word_ends_clean.
  - rewrite join_snoc by discriminate. simpl app at 2.
    apply strip_clean.
    + apply starts_clean_app; [|now apply join_starts_clean].
      apply join_nonempty; [discriminate|exact Hcur].
    + apply ends_clean_app with (t := SPACE :: w); [discriminate|].
      change (SPACE :: w) with ([SPACE] ++ w).
      apply ends_clean_app; [apply Hw|now apply word_ends_clean].
Qed.

End StrFacts.

Section SplitFacts.

Lemma split_from_words s : forall cur,
  no_space cur = true -> Forall is_word (split_from cur s).
Proof.
  induction s as [|c s IH]; intros cur Hcur; simpl.
  - destruct cur; constructor; [|constructor]. split; [discriminate|exact Hcur].
  - destruct (isspace c) eqn:Hc.
    + destruct cur.
      * now apply IH.
      * constructor; [split; [discriminate|exact Hcur]|now apply IH].
    + apply IH. unfold no_space. rewrite forallb_app. simpl.
      rewrite Hc. simpl. now rewrite andb_true_r.
Qed.

(** Every element of [s.split()] is a word. *)
Lemma split_words s : Forall is_word (split s).
Proof. now apply split_from_words. Qed.

Lemma split_from_run w : forall cur s,
  no_space w = true -> split_from cur (w ++ s) = split_from (cur ++ w) s.
Proof.
  induction w as [|c w IH]; intros cur s Hw; simpl.
  - now rewrite app_nil_r.
  - simpl in Hw. apply andb_true_iff in Hw. destruct Hw as [Hc Hw].
    apply negb_true_iff in Hc. rewrite Hc.
    rewrite IH by exact Hw. now rewrite <- app_assoc.
Qed.

Lemma split_from_join ws : forall cur,
  Forall is_word ws -> cur <> [] ->
  split_from cur (SPACE :: join ws) = cur :: ws.
Proof.
  induction ws as [|w ws IH]; intros cur Hws Hcur.
  - simpl. destruct cur; [congruence|reflexivity].
  - inversion Hws as [|? ? Hw Hws']; subst.
    change (split_from cur (SPACE :: join (w :: ws)))
      with (match cur with
            | [] => split_from [] (join (w :: ws))
            | _ => cur :: split_from [] (join (w :: ws))
            end).
    destruct cur as [|a cur]; [congruence|]. f_equal.
    destruct ws as [|v ws].
    + simpl. rewrite <- (app_nil_r w) at 1.
      rewrite split_from_run by apply Hw. simpl.
      destruct w; [destruct Hw; congruence|reflexivity].
    + rewrite join_cons by discriminate.
      rewrite split_from_run by apply Hw. simpl app.
      apply IH; [exact Hws'|apply Hw].
Qed.

(** Splitting a line made of words joined by single spaces gives the
    words back. *)
Lemma split_join ws : Forall is_word ws -> split (join ws) = ws.
Proof.
  intros Hws. destruct ws as [|w ws]; [reflexivity|].
  inversion Hws as [|? ? Hw Hws']; subst. unfold split.
  destruct ws as [|v ws].
  - simpl. rewrite <- (app_nil_r w) at 1.
    rewrite split_from_run by apply Hw. simpl.
    destruct w; [destruct Hw; congruence|reflexivity].
  - rewrite join_cons by discriminate.
    rewrite split_from_run by apply Hw. simpl app.
    apply split_from_join; [exact Hws'|apply Hw].
Qed.

End SplitFacts.

(** ** The comic text wrapper *)

Section WrapFacts.
Context {lib : Reportlab}.

Lemma drawn_lines_app c1 c2 :
  drawn_lines (c1 ++ c2) = drawn_lines c1 ++ drawn_lines c2.
Proof.
  induction c1 as [|o c1 IH]; [reflexivity|].
  destruct o; simpl; rewrite IH; reflexivity.
Qed.

Lemma page_count_app c1 c2 :
  page_count (c1 ++ c2) = (page_count c1 + page_count c2)%nat.
Proof.
  induction c1 as [|o c1 IH]; [reflexivity|].
  destruct o; simpl; rewrite IH; reflexivity.
Qed.

Lemma truthy_join cur :
  Forall is_word cur ->
  truthy (join cur) = match cur with [] => false | _ => true end.
Proof.
  intros H. destruct cur as [|w cur]; [reflexivity|].
  pose proof (join_nonempty (w :: cur) ltac:(discriminate) H) as Hne.
  destruct (join (w :: cur)); [congruence|reflexivity].
Qed.

Variables (x width leading : Q) (font_name : string) (font_size : Q).

(** The loop of [wrap_text] draws the lines of the greedy algorithm; the
    pending line is the last one. *)
Lemma wrap_words_greedy words : forall cur c y c' y' line',
  Forall is_word cur -> Forall is_word words ->
  Comic.wrap_words c words (join cur) x y width leading font_name font_size
    = (c', y', line') ->
  drawn_lines c' ++ (if truthy line' then [line'] else [])
  = drawn_lines c
    ++ greedy_lines (fits_width font_name font_size width) cur words.
Proof.
  induction words as [|w words IH]; intros cur c y c' y' line' Hcur Hws E.
  - simpl in E. injection E as <- <- <-.
    rewrite truthy_join by exact Hcur. simpl. destruct cur; reflexivity.
  - inversion Hws as [|? ? Hw Hws']; subst.
    cbn [Comic.wrap_words] in E.
    rewrite (strip_tentative cur w Hcur Hw) in E.
    cbn [greedy_lines].
    change (Qle_bool (stringWidth (join (cur ++ [w])) font_name font_size)
              width)
      with (fits_width font_name font_size width (join (cur ++ [w]))) in E.
    destruct (fits_width font_name font_size width (join (cur ++ [w]))).
    + apply (IH (cur ++ [w]) c y c' y' line'); [|exact Hws'|exact E].
      apply Forall_app. split; [exact Hcur|now constructor].
    + change w with (join [w]) in E.
      apply (IH [w]) in E; [|now constructor|exact Hws'].
      rewrite E. unfold drawString, setFont, call.
      rewrite !drawn_lines_app. simpl. rewrite <- !app_assoc. reflexivity.
Qed.

(** [wrap_text] draws exactly the lines of [greedy_wrap]. *)
Lemma wrap_text_greedy c text y :
  drawn_lines
    (fst (Comic.wrap_text c text x y width leading font_name font_size))
  = drawn_lines c ++ greedy_wrap text font_name font_size width.
Proof.
  unfold Comic.wrap_text, greedy_wrap.
  destruct (Comic.wrap_words c (split text) [] x y width leading
              font_name font_size) as [[c' y'] line'] eqn:E.
  change (@nil char) with (join []) in E.
  apply wrap_words_greedy in E; [|constructor|apply split_words].
  rewrite <- E.
  destruct (truthy line'); simpl.
  - unfold drawString, setFont, call. rewrite !drawn_lines_app. simpl.
    now rewrite <- app_assoc.
  - now rewrite app_nil_r.
Qed.

Lemma wrap_words_extends words : forall line c y,
  exists ops,
    fst (fst (Comic.wrap_words c words line x y width leading
                font_name font_size)) = c ++ ops
    /\ Forall text_call ops.
Proof.
  induction words as [|w words IH]; intros line c y; simpl.
  - exists []. split; [now rewrite app_nil_r|constructor].
  - destruct (Qle_bool _ _).
    + apply IH.
    + match goal with
      | |- context [Comic.wrap_words ?c' words ?l x ?y'] =>
          destruct (IH l c' y') as [ops [E F]]
      end.
      exists ([SetFont font_name font_size; DrawString x y line] ++ ops).
      split.
      * rewrite E. unfold drawString, setFont, call.
        rewrite <- !app_assoc. reflexivity.
      * apply Forall_app. split; [|exact F].
        repeat constructor.
Qed.

Lemma wrap_text_extends c text y :
  exists ops,
    fst (Comic.wrap_text c text x y width leading font_name font_size)
      = c ++ ops
    /\ Forall text_call ops.
Proof.
  unfold Comic.wrap_text.
  destruct (wrap_words_extends (split text) [] c y) as [ops [E F]].
  destruct (Comic.wrap_words c (split text) [] x y width leading
              font_name font_size) as [[c' y'] line'].
  simpl in E. subst c'.
  destruct (truthy line'); simpl.
  - exists (ops ++ [SetFont font_name font_size; DrawString x y' line']).
    split.
    + unfold drawString, setFont, call. rewrite <- !app_assoc. reflexivity.
    + apply Forall_app. split; [exact F|repeat constructor].
  - now exists ops.
Qed.

End WrapFacts.

(** ** The greedy algorithm *)

Section GreedyFacts.
Variable fits : str -> bool.

Lemma line_of_words_incl pool pool' line :
  incl pool pool' -> line_of_words fits pool line -> line_of_words fits pool' line.
Proof.
  intros Hi (g & E & Hg & Hin & Hfit).
  exists g. repeat split; try assumption.
  intros a Ha. apply Hi, Hin, Ha.
Qed.

Lemma greedy_lines_of_words words : forall cur,
  Forall is_word cur -> Forall is_word words ->
  ((List.length cur <= 1)%nat \/ fits (join cur) = true) ->
  Forall (line_of_words fits (cur ++ words)) (greedy_lines fits cur words).
Proof.
  induction words as [|w words IH]; intros cur Hcur Hws Hinv.
  - simpl. destruct cur as [|a cur]; constructor; [|constructor].
    exists (a :: cur). rewrite app_nil_r.
    repeat split; try assumption. apply incl_refl.
  - inversion Hws as [|? ? Hw Hws']; subst. cbn [greedy_lines].
    destruct (fits (join (cur ++ [w]))) eqn:Hfit.
    + replace (cur ++ w :: words) with ((cur ++ [w]) ++ words)
        by (rewrite <- app_assoc; reflexivity).
      apply IH; [|exact Hws'|now right].
      apply Forall_app. split; [exact Hcur|now constructor].
    + constructor.
      * exists cur. repeat split; try assumption.
        apply incl_appl, incl_refl.
      * refine (Forall_impl _ _ (IH [w] _ Hws' _)).
        -- intros line. apply line_of_words_incl.
           apply incl_appr, incl_refl.
        -- now constructor.
        -- left. simpl. lia.
Qed.

(** The lines are the words of the input in order: nothing is lost,
    reordered or cut inside a word. *)
Lemma greedy_lines_words words : forall cur,
  Forall is_word cur -> Forall is_word words ->
  List.concat (map split (greedy_lines fits cur words)) = cur ++ words.
Proof.
  induction words as [|w words IH]; intros cur Hcur Hws.
  - cbn [greedy_lines]. rewrite app_nil_r.
    destruct cur as [|a cur]; [reflexivity|].
    cbn [map List.concat]. rewrite app_nil_r. now apply split_join.
  - inversion Hws as [|? ? Hw Hws']; subst. cbn [greedy_lines].
    destruct (fits (join (cur ++ [w]))).
    + rewrite IH; [now rewrite <- app_assoc| |exact Hws'].
      apply Forall_app. split; [exact Hcur|now constructor].
    + cbn [map List.concat]. rewrite IH; [|now constructor|exact Hws'].
      now rewrite split_join.
Qed.

Hypothesis fits_parts :
  forall s t, fits (s ++ t) = true -> fits s = true /\ fits t = true.

Lemma fits_join_word g w :
  In w g -> fits (join g) = true -> fits w = true.
Proof.
  induction g as [|a g IH]; [contradiction|]. intros Hin Hfit.
  destruct g as [|b g].
  - destruct Hin as [<-|[]]. exact Hfit.
  - rewrite join_cons in Hfit by discriminate.
    apply fits_parts in Hfit. destruct Hfit as [Ha Hrest].
    destruct Hin as [<-|Hin]; [exact Ha|].
    apply IH; [exact Hin|].
    change (SPACE :: join (b :: g)) with ([SPACE] ++ join (b :: g)) in Hrest.
    now apply fits_parts in Hrest.
Qed.

(** A word that does not fit stands alone on its line. *)
Lemma overwide_word_alone pool line w :
  line_of_words fits pool line -> In w (split line) -> fits w = false ->
  line = w.
Proof.
  intros (g & -> & Hg & _ & Hcase) Hin Hw.
  rewrite split_join in Hin by exact Hg.
  destruct Hcase as [Hlen|Hfit].
  - destruct g as [|a [|b g]]; simpl in Hlen; try lia; [contradiction|].
    destruct Hin as [<-|[]]. reflexivity.
  - rewrite (fits_join_word g w Hin Hfit) in Hw. discriminate.
Qed.

End GreedyFacts.

Section WrapTheorems.
Context {lib : Reportlab}.

(** C2.  For every text, font and maximal width, the lines drawn by the
    comic [wrap_text] are exactly the lines of the greedy word-boundary
    algorithm [greedy_wrap]: words join the current line while the
    tentative line fits, otherwise the current line is flushed and the
    word starts a new one, and the last non-empty line is emitted at the
    end.  This holds on any canvas [c] and for any position and leading. *)
Theorem comic_wrap_text_is_greedy
    (c : canvas) (text : str) (x y maxWidth leading : Q)
    (font_name : string) (font_size : Q) :
  drawn_lines
    (fst (Comic.wrap_text c text x y maxWidth leading font_name font_size))
  = drawn_lines c ++ greedy_wrap text font_name font_size maxWidth.
Proof. apply wrap_text_greedy. Qed.

(** C1.  Every line drawn by the comic [wrap_text] is at most [maxWidth]
    wide, or is a single word of the text that is itself wider than
    [maxWidth]; the lines are the words of the text in order, none of them
    cut; a word wider than [maxWidth] is alone on its line, and every such
    word of the text is a line.  Assumed of the font metrics: the empty
    string fits, and a string is at least as wide as each of its parts. *)
Theorem comic_wrap_text_lines_fit
    (text : str) (x y maxWidth leading : Q)
    (font_name : string) (font_size : Q) :
  let wd := fun s => stringWidth s font_name font_size in
  let lines :=
    drawn_lines
      (fst (Comic.wrap_text Canvas text x y maxWidth leading
              font_name font_size)) in
  wd [] <= maxWidth ->
  (forall s t, wd s <= wd (s ++ t) /\ wd t <= wd (s ++ t)) ->
  (forall line, In line lines ->
     wd line <= maxWidth \/ (In line (split text) /\ maxWidth < wd line))
  /\ List.concat (map split lines) = split text
  /\ (forall line w, In line lines -> In w (split line) ->
        maxWidth < wd w -> line = w)
  /\ (forall w, In w (split text) -> maxWidth < wd w -> In w lines).
Proof.
  intros wd lines Hnil Hmono.
  set (fits := fun s => Qle_bool (stringWidth s font_name font_size) maxWidth).
  assert (Hfits : forall s, fits s = true <-> wd s <= maxWidth)
    by (intros s; apply Qle_bool_iff).
  assert (Hover : forall s, maxWidth < wd s -> fits s = false).
  { intros s Hlt. destruct (fits s) eqn:E; [|reflexivity].
    apply Hfits in E. exfalso. exact (Qlt_not_le _ _ Hlt E). }
  assert (Hparts : forall s t,
             fits (s ++ t) = true -> fits s = true /\ fits t = true).
  { intros s t H. apply Hfits in H. destruct (Hmono s t) as [Hs Ht].
    split; apply Hfits; eapply Qle_trans; eassumption. }
  assert (Elines : lines = greedy_lines fits [] (split text)).
  { unfold lines. rewrite wrap_text_greedy. reflexivity. }
  pose proof (greedy_lines_of_words fits (split text) []
                (Forall_nil _) (split_words text)
                (or_introl (Nat.le_0_l 1))) as Hall.
  rewrite <- Elines in Hall. simpl app in Hall.
  rewrite Forall_forall in Hall.
  pose proof (greedy_lines_words fits (split text) []
                (Forall_nil _) (split_words text)) as Hcat.
  rewrite <- Elines in Hcat. simpl app in Hcat.
  assert (Halone : forall line w, In line lines -> In w (split line) ->
                     maxWidth < wd w -> line = w).
  { intros line w Hl Hw Hlt.
    apply (overwide_word_alone fits Hparts (split text) line w);
      [now apply Hall|exact Hw|now apply Hover]. }
  repeat split.
  - intros line Hl. destruct (Hall line Hl) as (g & -> & Hg & Hin & Hcase).
    destruct (Qlt_le_dec maxWidth (wd (join g))) as [Hlt|Hle]; [|now left].
    destruct Hcase as [Hlen|Hfit].
    + destruct g as [|a [|b g]]; simpl in Hlen; try lia.
      * left. exact Hnil.
      * right. split; [apply Hin; now left|exact Hlt].
    + apply Hfits in Hfit. now left.
  - exact Hcat.
  - exact Halone.
  - intros w Hw Hlt. rewrite <- Hcat in Hw.
    apply in_concat in Hw. destruct Hw as (ws & Hws & Hin).
    apply in_map_iff in Hws. destruct Hws as (line & <- & Hl).
    now rewrite <- (Halone line w Hl Hin Hlt).
Qed.

End WrapTheorems.

(** When the first word of the text is itself too wide, the loop flushes
    the still empty current line: an empty string is drawn first and the
    word follows one leading further down. *)
Example comic_wrap_text_overwide_first_word :
  @Comic.wrap_text fixed_pitch Canvas
    (lit "ABCDEFGHIJABCDEFGHIJABCDEFGHIJABCDEFGHIJABCD x") 18 198 252 13
    "Helvetica-Bold" 12
  = ([SetFont "Helvetica-Bold" 12; DrawString 18 198 [];
      SetFont "Helvetica-Bold" 12;
      DrawString 18 (198 - 13)
        (lit "ABCDEFGHIJABCDEFGHIJABCDEFGHIJABCDEFGHIJABCD");
      SetFont "Helvetica-Bold" 12;
      DrawString 18 (198 - 13 - 13) (lit "x")],
     198 - 13 - 13 - 13).
Proof. reflexivity. Qed.

Lemma fixed_pitch_width_parts (font : string) (size : Q) (s t : str) :
  0 <= size ->
  @stringWidth fixed_pitch s font size
    <= @stringWidth fixed_pitch (s ++ t) font size
  /\ @stringWidth fixed_pitch t font size
    <= @stringWidth fixed_pitch (s ++ t) font size.
Proof.
  intros Hsize. simpl. rewrite length_app, Nat2Z.inj_add.
  split; apply Qmult_le_compat_r; try discriminate;
    apply Qmult_le_compat_r; try exact Hsize;
    rewrite <- Zle_Qle; lia.
Qed.

(** C1 at a title with a 44-letter word, 12 point bold, 252 points. *)
Lemma comic_wrap_text_lines_fit_witness :
  let text := lit "Rare ABCDEFGHIJABCDEFGHIJABCDEFGHIJABCDEFGHIJABCD 1st print" in
  let wd := fun s => @stringWidth fixed_pitch s "Helvetica-Bold" 12 in
  let lines :=
    drawn_lines
      (fst (@Comic.wrap_text fixed_pitch Canvas text 18 198 252 13
              "Helvetica-Bold" 12)) in
  wd [] <= 252
  /\ (forall s t, wd s <= wd (s ++ t) /\ wd t <= wd (s ++ t))
  /\ (forall line, In line lines ->
        wd line <= 252 \/ (In line (split text) /\ 252 < wd line)).
Proof.
  intros text wd lines.
  assert (H0 : wd [] <= 252) by (vm_compute; discriminate).
  assert (Hm : forall s t, wd s <= wd (s ++ t) /\ wd t <= wd (s ++ t))
    by (intros s t; apply fixed_pitch_width_parts; vm_compute; discriminate).
  split; [exact H0|]. split; [exact Hm|].
  exact (proj1 (@comic_wrap_text_lines_fit fixed_pitch text 18 198 252 13
                  "Helvetica-Bold" 12 H0 Hm)).
Defined.

(** ** The card row reader *)

Ltac by_row_length raw :=
  destruct raw as [|?f0 [|?f1 [|?f2 [|?f3 [|?f4 [|?f5 [|?f6 ?rest]]]]]]];
  reflexivity.

Section ReaderFacts.

(** The padding loop stops within 7 iterations and pads to 7 fields. *)
Lemma card_pad_while raw : Card.pad_while 7 raw = padded raw.
Proof.
  destruct raw as [|f0 [|f1 [|f2 [|f3 [|f4 [|f5 [|f6 rest]]]]]]];
    try reflexivity.
  unfold padded. simpl. now rewrite app_nil_r.
Qed.

Lemma pokemon_pad_while raw : Pokemon.pad_while 7 raw = padded raw.
Proof.
  destruct raw as [|f0 [|f1 [|f2 [|f3 [|f4 [|f5 [|f6 rest]]]]]]];
    try reflexivity.
  unfold padded. simpl. now rewrite app_nil_r.
Qed.

Lemma padded_length raw : (7 <= List.length (padded raw))%nat.
Proof.
  unfold padded. rewrite length_app, repeat_length. lia.
Qed.

Lemma padded_fields raw :
  map strip (firstn 7 (padded raw))
  = [strip (nth 0 raw []); strip (nth 1 raw []); strip (nth 2 raw []);
     strip (nth 3 raw []); strip (nth 4 raw []); strip (nth 5 raw []);
     strip (nth 6 raw [])].
Proof. by_row_length raw. Qed.

Lemma card_read_loop reader : forall rows,
  Card.read_loop reader rows
  = Ok (rows ++ map card_record (non_blank_rows reader)).
Proof.
  induction reader as [|raw reader IH]; intros rows.
  - simpl. now rewrite app_nil_r.
  - cbn [Card.read_loop non_blank_rows filter].
    fold (non_blank_rows reader).
    destruct (is_blank_row raw); cbn [negb]; [apply IH|].
    rewrite card_pad_while, padded_fields, IH.
    cbn [map]. rewrite <- app_assoc. reflexivity.
Qed.

Lemma pokemon_read_loop reader : forall rows,
  Pokemon.read_loop reader rows
  = Ok (rows ++ map pokemon_record (non_blank_rows reader)).
Proof.
  induction reader as [|raw reader IH]; intros rows.
  - simpl. now rewrite app_nil_r.
  - cbn [Pokemon.read_loop non_blank_rows filter].
    fold (non_blank_rows reader).
    destruct (is_blank_row raw); cbn [negb]; [apply IH|].
    rewrite pokemon_pad_while, padded_fields, IH.
    cbn [map]. rewrite <- app_assoc. reflexivity.
Qed.

(** [read_rows] never raises: one record per non-blank row, in order. *)
Lemma card_read_rows reader :
  Card.read_rows (Ok reader) = Ok (map card_record (non_blank_rows reader)).
Proof. apply card_read_loop. Qed.

Lemma pokemon_read_rows reader :
  Pokemon.read_rows (Ok reader)
  = Ok (map pokemon_record (non_blank_rows reader)).
Proof. apply pokemon_read_loop. Qed.

End ReaderFacts.

Section ReaderTheorems.

(** C5.  For every non-blank row [raw] of the input, the card reader
    pads the row on the right with empty strings to at least 7 fields,
    keeps exactly the first 7, strips each of them, and yields the record
    whose title, bullets, price, inventory id and barcode are the stripped
    columns 0, 1, 2, 4, 5 and 6 of the row (column 3, the price source, is
    dropped; a missing column reads as the empty string). *)
Theorem card_reader_pads_slices_strips
    (reader : list (list str)) (raw : list str) :
  In raw reader -> is_blank_row raw = false ->
  let row7 := firstn 7 (Card.pad_while 7 raw) in
  let record :=
    {| Card.title := strip (nth 0 raw []);
       Card.b1 := strip (nth 1 raw []);
       Card.b2 := strip (nth 2 raw []);
       Card.price := strip (nth 4 raw []);
       Card.inv := strip (nth 5 raw []);
       Card.barcode := strip (nth 6 raw []) |} in
  Card.pad_while 7 raw = raw ++ repeat [] (7 - List.length raw)
  /\ (7 <= List.length (Card.pad_while 7 raw))%nat
  /\ List.length row7 = 7%nat
  /\ (forall i, (i < 7)%nat ->
        nth i (map strip row7) [] = strip (nth i raw []))
  /\ Card.read_rows (Ok [raw]) = Ok [record]
  /\ exists records,
       Card.read_rows (Ok reader) = Ok records /\ In record records.
Proof.
  intros Hin Hnb row7 record.
  assert (Hlen : (7 <= List.length (Card.pad_while 7 raw))%nat)
    by (rewrite card_pad_while; apply padded_length).
  repeat split.
  - apply card_pad_while.
  - exact Hlen.
  - unfold row7. rewrite length_firstn. lia.
  - intros i Hi. unfold row7. rewrite card_pad_while, padded_fields.
    do 7 (destruct i as [|i]; [reflexivity|]). lia.
  - rewrite card_read_rows. unfold non_blank_rows. simpl filter.
    rewrite Hnb. reflexivity.
  - exists (map card_record (non_blank_rows reader)).
    split; [apply card_read_rows|].
    apply (in_map card_record). unfold non_blank_rows.
    apply filter_In. split; [exact Hin|]. now rewrite Hnb.
Qed.

End ReaderTheorems.

(** The example row of the specification. *)
Example card_read_rows_charizard :
  Card.read_rows (Ok [charizard_row])
  = Ok [ {| Card.title := lit "Charizard";
            Card.b1 := lit "Holo Rare";
            Card.b2 := lit "1st Edition";
            Card.price := lit "299.99";
            Card.inv := lit "INV-001";
            Card.barcode := lit "012345678905" |} ].
Proof. reflexivity. Qed.

(** C5 at a short row with surrounding blanks, between two blank rows. *)
Lemma card_reader_pads_slices_strips_witness :
  let raw := [lit "  Pikachu "; lit "Promo"; lit ""; lit "tcg"; lit " 4.50"] in
  let reader := [[]; raw; [lit "  "; lit ""]] in
  In raw reader /\ is_blank_row raw = false
  /\ Card.read_rows (Ok reader)
     = Ok [ {| Card.title := lit "Pikachu";
               Card.b1 := lit "Promo";
               Card.b2 := [];
               Card.price := lit "4.50";
               Card.inv := [];
               Card.barcode := [] |} ].
Proof.
  intros raw reader.
  assert (Hin : In raw reader) by (simpl; auto).
  assert (Hnb : is_blank_row raw = false) by reflexivity.
  split; [exact Hin|]. split; [exact Hnb|].
  destruct (card_reader_pads_slices_strips reader raw Hin Hnb)
    as (_ & _ & _ & _ & _ & records & E & _).
  rewrite E. vm_compute in E. injection E as <-. reflexivity.
Defined.

(** ** Barcode placement *)

Section BarcodeTheorems.
Context {lib : Reportlab}.

Lemma py_max_floor (a b : Q) : a <= py_max a b.
Proof.
  unfold py_max. destruct (Qle_bool b a) eqn:E; [apply Qle_refl|].
  destruct (Qlt_le_dec a b) as [H|H]; [now apply Qlt_le_weak|].
  apply Qle_bool_iff in H. congruence.
Qed.

Lemma py_max_is_max (a b : Q) : py_max a b == Qminmax.Qmax a b.
Proof.
  unfold py_max. destruct (Qle_bool b a) eqn:E.
  - apply Qle_bool_iff in E. symmetry. now apply Q.max_l.
  - destruct (Qlt_le_dec a b) as [H|H].
    + symmetry. apply Q.max_r. now apply Qlt_le_weak.
    + apply Qle_bool_iff in H. congruence.
Qed.

(** C3.  In both card scripts, for every record and every canvas, with
    [y] the cursor after the description and the gap before the barcode,
    [draw_label] draws the barcode at height [max(8, y - BARCODE_HEIGHT)],
    which is at least 8 whatever [y] is; the label fails only if the
    barcode library does. *)
Theorem card_barcode_never_below_floor (c : canvas) :
  (forall row : Card.label,
     let c1 := fst (Card.draw_description c row) in
     let y := snd (Card.draw_description c row) in
     let bc_y := py_max 8 (y - Card.BARCODE_HEIGHT) in
     bc_y == Qminmax.Qmax 8 (y - Card.BARCODE_HEIGHT)
     /\ 8 <= bc_y
     /\ Card.draw_label c row
        = (bc <- Code128 (Card.barcode row) Card.BARCODE_HEIGHT
                   (Some (0.0125 * inch)) ;;
           Ok (c1 ++ [DrawOn bc ((Card.PAGE_W - bc_width bc) / 2) bc_y;
                      SetFont Card.TITLE_FONT Card.BODY_SIZE;
                      DrawCentredString (Card.PAGE_W / 2)
                        (bc_y - Card.TEXT_UNDER_BAR_GAP - Card.BODY_SIZE)
                        (Card.inv row ++ lit "    " ++ Card.price row)])))
  /\
  (forall row : Pokemon.label,
     let c1 := fst (Pokemon.draw_description c row) in
     let y := snd (Pokemon.draw_description c row) in
     let bc_y := py_max 8 (y - Pokemon.BARCODE_HEIGHT) in
     bc_y == Qminmax.Qmax 8 (y - Pokemon.BARCODE_HEIGHT)
     /\ 8 <= bc_y
     /\ Pokemon.draw_label c row
        = (bc <- Code128 (Pokemon.barcode row) Pokemon.BARCODE_HEIGHT
                   (Some (0.0125 * inch)) ;;
           Ok (c1 ++ [DrawOn bc ((Pokemon.PAGE_W - bc_width bc) / 2) bc_y;
                      SetFont Pokemon.TITLE_FONT Pokemon.BODY_SIZE;
                      DrawCentredString (Pokemon.PAGE_W / 2)
                        (bc_y - Pokemon.TEXT_UNDER_BAR_GAP - Pokemon.BODY_SIZE)
                        (Pokemon.inv row ++ lit "    " ++ Pokemon.price row)]))).
Proof.
  split; intros row c1 y bc_y.
  - split; [apply py_max_is_max|]. split; [apply py_max_floor|].
    unfold Card.draw_label. subst c1 y bc_y.
    destruct (Card.draw_description c row) as [c1 y]. simpl fst. simpl snd.
    destruct (Code128 _ _ _); simpl; [|reflexivity].
    unfold drawCentredString, setFont, drawOn, call.
    rewrite <- !app_assoc. reflexivity.
  - split; [apply py_max_is_max|]. split; [apply py_max_floor|].
    unfold Pokemon.draw_label. subst c1 y bc_y.
    destruct (Pokemon.draw_description c row) as [c1 y]. simpl fst. simpl snd.
    destruct (Code128 _ _ _); simpl; [|reflexivity].
    unfold drawCentredString, setFont, drawOn, call.
    rewrite <- !app_assoc. reflexivity.
Qed.

End BarcodeTheorems.

(** A title of thirteen lines drives the cursor below the page (to -71)
    and the barcode is drawn at the floor. *)
Example card_barcode_floor_long_title :
  snd (@Card.draw_description fixed_pitch Canvas long_title_card) == -71
  /\ exists c' bc bc_x,
       @Card.draw_label fixed_pitch Canvas long_title_card = Ok c'
       /\ In (DrawOn bc bc_x 8) c'.
Proof.
  split; [reflexivity|].
  eexists _, _, _. split; [vm_compute; reflexivity|].
  simpl. repeat (first [left; reflexivity | right]).
Qed.

(** ** Character normalization and blank fields of the comic label *)

Section NormalizeFacts.

Lemma normalize_char_steps (c : char) :
  let r := fun a b c => if (c =? a)%N then b else c in
  r 0x2010%N HYPHEN_MINUS
    (r 0x00a0%N SPACE
       (r 0x2014%N HYPHEN_MINUS
          (r 0x2013%N HYPHEN_MINUS (r 0x2011%N HYPHEN_MINUS c))))
  = normalize_char c.
Proof.
  unfold normalize_char. cbv zeta.
  destruct (c =? 0x2011)%N eqn:E1;
    [apply N.eqb_eq in E1; subst; reflexivity|].
  destruct (c =? 0x2013)%N eqn:E2;
    [apply N.eqb_eq in E2; subst; reflexivity|].
  destruct (c =? 0x2014)%N eqn:E3;
    [apply N.eqb_eq in E3; subst; reflexivity|].
  destruct (c =? 0x00a0)%N eqn:E4;
    [apply N.eqb_eq in E4; subst; reflexivity|].
  destruct (c =? 0x2010)%N eqn:E5; reflexivity.
Qed.

(** [normalize_text] replaces character by character, by the table. *)
Lemma normalize_text_map (s : str) :
  Comic.normalize_text s = map normalize_char s.
Proof.
  unfold Comic.normalize_text. destruct s as [|c s]; [reflexivity|].
  cbn [truthy negb]. unfold replace. rewrite !map_map.
  apply map_ext. intros a. apply normalize_char_steps.
Qed.

Lemma normalize_char_idem (c : char) :
  normalize_char (normalize_char c) = normalize_char c.
Proof.
  unfold normalize_char.
  destruct (c =? 0x2011)%N eqn:E1; [reflexivity|].
  destruct (c =? 0x2013)%N eqn:E2; [reflexivity|].
  destruct (c =? 0x2014)%N eqn:E3; [reflexivity|].
  destruct (c =? 0x2010)%N eqn:E5; [reflexivity|].
  destruct (c =? 0x00a0)%N eqn:E4; [reflexivity|].
  cbn [orb]. now rewrite E1, E2, E3, E5, E4.
Qed.

Lemma normalize_text_idem (s : str) :
  Comic.normalize_text (Comic.normalize_text s) = Comic.normalize_text s.
Proof.
  rewrite !normalize_text_map, map_map.
  apply map_ext. apply normalize_char_idem.
Qed.

Lemma normalize_text_variant (s s' : str) :
  ascii_variant s s' -> Comic.normalize_text s = Comic.normalize_text s'.
Proof.
  rewrite !normalize_text_map. unfold ascii_variant.
  induction 1 as [|a b s s' Hab _ IH]; [reflexivity|].
  simpl. rewrite IH. f_equal.
  destruct Hab as [->| ->]; [reflexivity|].
  symmetry. apply normalize_char_idem.
Qed.

Lemma normalize_rows_variant (row row' : list str) :
  Forall2 ascii_variant row row' ->
  map Comic.normalize_text row = map Comic.normalize_text row'.
Proof.
  induction 1 as [|s s' row row' H _ IH]; [reflexivity|].
  simpl. now rewrite IH, (normalize_text_variant s s' H).
Qed.

(** Normalization keeps whitespace whitespace and the rest not. *)
Lemma isspace_normalize_char (c : char) :
  isspace (normalize_char c) = isspace c.
Proof.
  unfold normalize_char.
  destruct (c =? 0x2011)%N eqn:E1;
    [apply N.eqb_eq in E1; subst; reflexivity|].
  destruct (c =? 0x2013)%N eqn:E2;
    [apply N.eqb_eq in E2; subst; reflexivity|].
  destruct (c =? 0x2014)%N eqn:E3;
    [apply N.eqb_eq in E3; subst; reflexivity|].
  destruct (c =? 0x2010)%N eqn:E5;
    [apply N.eqb_eq in E5; subst; reflexivity|].
  destruct (c =? 0x00a0)%N eqn:E4;
    [apply N.eqb_eq in E4; subst; reflexivity|].
  reflexivity.
Qed.

Lemma is_blank_normalize (s : str) :
  is_blank (Comic.normalize_text s) = is_blank s.
Proof.
  rewrite normalize_text_map. unfold is_blank.
  induction s as [|c s IH]; [reflexivity|].
  simpl. now rewrite IH, isspace_normalize_char.
Qed.

Lemma lstrip_nil_blank (s : str) : truthy (lstrip s) = negb (is_blank s).
Proof.
  unfold is_blank. induction s as [|c s IH]; [reflexivity|].
  simpl. destruct (isspace c); [exact IH|reflexivity].
Qed.

Lemma is_blank_lstrip (s : str) : is_blank (lstrip s) = is_blank s.
Proof.
  unfold is_blank. induction s as [|c s IH]; [reflexivity|].
  simpl. destruct (isspace c) eqn:E; [exact IH|].
  simpl. now rewrite E.
Qed.

Lemma is_blank_rev (s : str) : is_blank (rev s) = is_blank s.
Proof.
  unfold is_blank. induction s as [|c s IH]; [reflexivity|].
  simpl. rewrite forallb_app, IH. simpl.
  rewrite andb_true_r. apply andb_comm.
Qed.

Lemma truthy_rev (s : str) : truthy (rev s) = truthy s.
Proof.
  destruct s as [|c s]; [reflexivity|]. simpl.
  destruct (rev s); reflexivity.
Qed.

(** [s.strip()] is empty exactly for a blank [s]. *)
Lemma truthy_strip (s : str) : truthy (strip s) = negb (is_blank s).
Proof.
  unfold strip, rstrip.
  now rewrite truthy_rev, lstrip_nil_blank, is_blank_rev, is_blank_lstrip.
Qed.

Lemma truthy_and_strip (s : str) :
  truthy s && truthy (strip s) = negb (is_blank s).
Proof.
  rewrite truthy_strip. destruct s; reflexivity.
Qed.

End NormalizeFacts.

Section ComicLabelFacts.
Context {lib : Reportlab}.

Lemma draw_bullets_fields (fields : list str) (x : Q) : forall c y,
  Comic.draw_bullets c
    (filter (fun b => truthy b && truthy (strip b))
       (map Comic.normalize_text fields)) x y
  = fold_left (emit_field [] "Helvetica" x) fields (c, y).
Proof.
  induction fields as [|f fields IH]; intros c y; [reflexivity|].
  cbn [map filter fold_left].
  rewrite truthy_and_strip, is_blank_normalize.
  unfold emit_field at 2. cbn [fst snd app].
  destruct (is_blank f); cbn [negb]; [apply IH|].
  cbn [Comic.draw_bullets].
  destruct (Comic.wrap_text c _ x y Comic.MAX_TEXT_W 11 "Helvetica" 11)
    as [c' y'].
  apply IH.
Qed.

Lemma draw_publisher_field (publisher : str) (x : Q) (c : canvas) (y : Q) :
  Comic.draw_publisher c (Comic.normalize_text publisher) x y
  = emit_field (lit "Publisher: ") "Helvetica-Oblique" x (c, y) publisher.
Proof.
  unfold Comic.draw_publisher, emit_field.
  rewrite truthy_strip, is_blank_normalize.
  destruct (is_blank publisher); reflexivity.
Qed.

(** The two halves of [draw_label], for a row of 8 fields. *)
Lemma draw_label_fields (c : canvas)
    (title b1 b2 b3 publisher price inv_id barcode_num : str) :
  let x := Comic.MARGIN in
  let st0 :=
    Comic.wrap_text (setFont c "Helvetica-Bold" 12)
      (Comic.normalize_text title) x (Comic.PAGE_H - Comic.MARGIN)
      Comic.MAX_TEXT_W 13 "Helvetica-Bold" 12 in
  let st1 := (setFont (fst st0) "Helvetica" 11, snd st0 + 2 - 3) in
  let st2 := fold_left (emit_field [] "Helvetica" x) [b1; b2; b3] st1 in
  let st3 :=
    emit_field (lit "Publisher: ") "Helvetica-Oblique" x st2 publisher in
  Comic.draw_label c
    [title; b1; b2; b3; publisher; price; inv_id; barcode_num]
  = Comic.draw_price_and_barcode (fst st3) x (snd st3)
      (strip (Comic.normalize_text price)) (Comic.normalize_text inv_id)
      (Comic.normalize_text barcode_num).
Proof.
  cbv zeta. unfold Comic.draw_label. cbn [map].
  destruct (Comic.wrap_text (setFont c "Helvetica-Bold" 12)
              (Comic.normalize_text title) Comic.MARGIN
              (Comic.PAGE_H - Comic.MARGIN) Comic.MAX_TEXT_W 13
              "Helvetica-Bold" 12) as [c0 y0].
  cbn [fst snd].
  change [Comic.normalize_text b1; Comic.normalize_text b2;
          Comic.normalize_text b3]
    with (map Comic.normalize_text [b1; b2; b3]).
  rewrite draw_bullets_fields.
  destruct (fold_left (emit_field [] "Helvetica" Comic.MARGIN) [b1; b2; b3]
              (setFont c0 "Helvetica" 11, y0 + 2 - 3)) as [c2 y2].
  rewrite draw_publisher_field.
  destruct (emit_field (lit "Publisher: ") "Helvetica-Oblique" Comic.MARGIN
              (c2, y2) publisher) as [c3 y3].
  reflexivity.
Qed.

End ComicLabelFacts.

Section ComicLabelTheorems.
Context {lib : Reportlab}.

Lemma py_min_cap (a b : Q) : py_min a b <= b.
Proof.
  unfold py_min. destruct (Qle_bool a b) eqn:E; [|apply Qle_refl].
  now apply Qle_bool_iff.
Qed.

Lemma py_min_is_min (a b : Q) : py_min a b == Qminmax.Qmin a b.
Proof.
  unfold py_min. destruct (Qle_bool a b) eqn:E.
  - apply Qle_bool_iff in E. symmetry. now apply Q.min_l.
  - destruct (Qlt_le_dec b a) as [H|H].
    + symmetry. apply Q.min_r. now apply Qlt_le_weak.
    + apply Qle_bool_iff in H. congruence.
Qed.

(** A row of 8 fields is drawn unless the barcode library refuses the
    barcode value or reports a symbol of width 0. *)
Lemma draw_label_succeeds (c : canvas) (row : list str) (bc : barcode) :
  List.length row = 8%nat ->
  Code128 (Comic.normalize_text (nth 7 row [])) (0.30 * inch) None = Ok bc ->
  Qeq_bool (bc_width bc) 0 = false ->
  exists c', Comic.draw_label c row = Ok c'.
Proof.
  intros Hlen Hbc Hw.
  destruct row as [|f0 [|f1 [|f2 [|f3 [|f4 [|f5 [|f6 [|f7 [|f8 rest]]]]]]]]];
    try discriminate.
  rewrite draw_label_fields. unfold Comic.draw_price_and_barcode.
  cbn [nth] in Hbc. rewrite Hbc. cbn [bind]. rewrite Hw. cbn [bind].
  eexists. reflexivity.
Qed.

(** C9.  For every comic record, [draw_label] is: the title block; then,
    in the order bullet 1, bullet 2, bullet 3, publisher, one [emit_field]
    step per field; then the price and barcode part.  A step for a blank
    field (empty or whitespace-only) returns canvas and cursor unchanged;
    a step for any other field wraps and draws the bullet glyph, a space,
    the label (none for a bullet, "Publisher: " for the publisher) and the
    stripped normalized field, and moves the cursor 3 points further. *)
Theorem comic_blank_fields_draw_nothing (c : canvas)
    (title b1 b2 b3 publisher price inv_id barcode_num : str) :
  let x := Comic.MARGIN in
  let st0 :=
    Comic.wrap_text (setFont c "Helvetica-Bold" 12)
      (Comic.normalize_text title) x (Comic.PAGE_H - Comic.MARGIN)
      Comic.MAX_TEXT_W 13 "Helvetica-Bold" 12 in
  let st1 := (setFont (fst st0) "Helvetica" 11, snd st0 + 2 - 3) in
  let st2 := fold_left (emit_field [] "Helvetica" x) [b1; b2; b3] st1 in
  let st3 :=
    emit_field (lit "Publisher: ") "Helvetica-Oblique" x st2 publisher in
  Comic.draw_label c
    [title; b1; b2; b3; publisher; price; inv_id; barcode_num]
  = Comic.draw_price_and_barcode (fst st3) x (snd st3)
      (strip (Comic.normalize_text price)) (Comic.normalize_text inv_id)
      (Comic.normalize_text barcode_num)
  /\ forall (label : str) (font : string) (st : canvas * Q) (field : str),
       emit_field label font x st field
       = if forallb isspace field then st
         else
           let drawn :=
             Comic.wrap_text (fst st)
               ([BULLET; SPACE] ++ label
                ++ strip (Comic.normalize_text field))
               x (snd st) Comic.MAX_TEXT_W 11 font 11 in
           (fst drawn, snd drawn - 3).
Proof.
  intros x st0 st1 st2 st3. split; [apply draw_label_fields|].
  intros label font st field. unfold emit_field, is_blank.
  destruct (forallb isspace field); [reflexivity|].
  cbn [app]. destruct (Comic.wrap_text (fst st) _ _ _ _ _ _ _). reflexivity.
Qed.

(** C10.  [normalize_text] maps U+2011, U+2013, U+2014 and U+2010 to
    '-' and U+00A0 to ' ' and leaves every other character; [draw_label]
    sees a row only through its normalized fields, so two rows with equal
    normalized fields give the same result, and so do a row and any of its
    variants in which some of these characters are replaced by their ASCII
    counterparts. *)
Theorem comic_draw_label_normalizes (c : canvas) (row row' : list str) :
  (forall s, Comic.normalize_text s = map normalize_char s)
  /\ (map Comic.normalize_text row = map Comic.normalize_text row' ->
      Comic.draw_label c row = Comic.draw_label c row')
  /\ (Forall2 ascii_variant row row' ->
      Comic.draw_label c row = Comic.draw_label c row').
Proof.
  assert (H : map Comic.normalize_text row = map Comic.normalize_text row' ->
              Comic.draw_label c row = Comic.draw_label c row').
  { intros E. unfold Comic.draw_label. now rewrite E. }
  split; [exact normalize_text_map|]. split; [exact H|].
  intros Hv. apply H. now apply normalize_rows_variant.
Qed.

(** C4.  Whenever the comic [draw_label] draws a label, the barcode is
    drawn at the origin of a coordinate system translated to
    [(bc_x, bc_y)] and scaled by [sc] in both directions, where
    [sc = min(2.6 inch / width, 1.8)] for the native [width] of the
    symbol, so [sc] is at most 1.8, and
    [bc_x = (PAGE_W - width * sc) / 2], so the middle of the scaled symbol
    is the middle of the page, which is 4 inches (288 points) wide. *)
Theorem comic_barcode_scaled_and_centred
    (c : canvas) (row : list str) (c' : canvas) :
  Comic.draw_label c row = Ok c' ->
  exists (c1 : canvas) (y : Q) (bc : barcode) (footer : str),
    Code128 (Comic.normalize_text (nth 7 row [])) (0.30 * inch) None = Ok bc
    /\ ~ bc_width bc == 0
    /\ let sc := py_min (2.6 * inch / bc_width bc) 1.8 in
       let bc_x := (Comic.PAGE_W - bc_width bc * sc) / 2 in
       let bc_y := y - bc_height bc * sc in
       c' = c1 ++ [SaveState; Translate bc_x bc_y; Scale sc sc;
                   DrawOn bc 0 0; RestoreState;
                   SetFont "Helvetica-Bold" 10;
                   DrawCentredString (Comic.PAGE_W / 2) (bc_y - 12) footer]
       /\ sc == Qminmax.Qmin (2.6 * inch / bc_width bc) 1.8
       /\ sc <= 1.8
       /\ bc_x + bc_width bc * sc / 2 == Comic.PAGE_W / 2
       /\ Comic.PAGE_W == 4 * 72.
Proof.
  intros E.
  destruct row as [|f0 [|f1 [|f2 [|f3 [|f4 [|f5 [|f6 [|f7 [|f8 rest]]]]]]]]];
    try discriminate.
  rewrite draw_label_fields in E. cbv zeta in E.
  unfold Comic.draw_price_and_barcode in E. cbn [nth].
  destruct (Code128 (Comic.normalize_text f7) (0.30 * inch) None)
    as [bc|e] eqn:Hbc; [|discriminate].
  cbn [bind] in E.
  destruct (Qeq_bool (bc_width bc) 0) eqn:Hw; [discriminate|].
  cbn [bind] in E.
  match type of E with
  | Ok (drawCentredString
          (setFont
             (restoreState
                (drawOn _ (scale (translate (saveState ?C) _ (?Y - _)) _ _)
                   _ _)) _ _) _ _ ?F) = _ =>
      remember C as c1 eqn:Hc1; exists c1, Y, bc, F
  end.
  split; [reflexivity|]. split.
  { intros H0. apply Qeq_bool_iff in H0. congruence. }
  cbv zeta. split.
  { injection E as <-.
    unfold drawCentredString, setFont, restoreState, drawOn, scale, translate,
      saveState, call.
    rewrite <- !app_assoc. reflexivity. }
  split; [apply py_min_is_min|]. split; [apply py_min_cap|].
  split; [field|reflexivity].
Qed.

End ComicLabelTheorems.

(** ** Pages *)

Section PageFacts.
Context {lib : Reportlab}.

Lemma text_calls_no_page ops : Forall text_call ops -> page_count ops = 0%nat.
Proof.
  induction 1 as [|o ops Ho _ IH]; [reflexivity|].
  destruct o; simpl in *; try contradiction; exact IH.
Qed.

Lemma page_count_call c o :
  page_count (call c o)
  = (page_count c + match o with ShowPage => 1 | _ => 0 end)%nat.
Proof.
  unfold call. rewrite page_count_app. destruct o; reflexivity.
Qed.

Lemma wrap_text_pages c text x y width leading font_name font_size :
  page_count
    (fst (Comic.wrap_text c text x y width leading font_name font_size))
  = page_count c.
Proof.
  destruct (wrap_text_extends x width leading font_name font_size c text y)
    as [ops [E F]].
  rewrite E, page_count_app, (text_calls_no_page ops F). lia.
Qed.

Lemma emit_field_pages label font x st field :
  page_count (fst (emit_field label font x st field)) = page_count (fst st).
Proof.
  unfold emit_field. destruct (is_blank field); [reflexivity|].
  pose proof (wrap_text_pages (fst st)
                (BULLET :: SPACE :: label
                 ++ strip (Comic.normalize_text field))
                x (snd st) Comic.MAX_TEXT_W 11 font 11) as H.
  destruct (Comic.wrap_text (fst st) _ _ _ _ _ _ _). exact H.
Qed.

Lemma emit_fields_pages font x fields : forall st,
  page_count (fst (fold_left (emit_field [] font x) fields st))
  = page_count (fst st).
Proof.
  induction fields as [|f fields IH]; intros st; [reflexivity|].
  simpl. rewrite IH. apply emit_field_pages.
Qed.

Lemma draw_price_and_barcode_pages c x y price_display inv_id barcode_num c' :
  Comic.draw_price_and_barcode c x y price_display inv_id barcode_num = Ok c' ->
  page_count c' = page_count c.
Proof.
  unfold Comic.draw_price_and_barcode.
  destruct (Code128 barcode_num (0.30 * inch) None) as [bc|e];
    [|discriminate].
  cbn [bind]. destruct (Qeq_bool (bc_width bc) 0); [discriminate|].
  cbn [bind]. intros E. injection E as <-.
  unfold drawCentredString, setFont, restoreState, drawOn, scale, translate,
    saveState, drawString.
  rewrite !page_count_call. lia.
Qed.

(** [draw_label] stays on the current page. *)
Lemma comic_draw_label_pages c row c' :
  Comic.draw_label c row = Ok c' -> page_count c' = page_count c.
Proof.
  intros E.
  destruct row as [|f0 [|f1 [|f2 [|f3 [|f4 [|f5 [|f6 [|f7 [|f8 rest]]]]]]]]];
    try discriminate.
  rewrite draw_label_fields in E. cbv zeta in E.
  apply draw_price_and_barcode_pages in E. rewrite E.
  rewrite emit_field_pages, emit_fields_pages. cbn [fst].
  unfold setFont at 1. rewrite page_count_call, wrap_text_pages.
  unfold setFont. rewrite page_count_call. lia.
Qed.

Lemma comic_draw_rows_app pre : forall c post,
  Comic.draw_rows c (pre ++ post)
  = (c' <- Comic.draw_rows c pre ;; Comic.draw_rows c' post).
Proof.
  induction pre as [|row pre IH]; intros c post; [reflexivity|].
  cbn [app Comic.draw_rows].
  destruct (is_blank_row row); [apply IH|].
  destruct (List.length row <? 8)%nat; [reflexivity|].
  destruct (Comic.draw_label c (firstn 8 row)); cbn [bind];
    [apply IH|reflexivity].
Qed.


Lemma comic_draw_rows_render reader : forall c,
  (forall row, In row (non_blank_rows reader) -> (8 <= List.length row)%nat) ->
  Comic.draw_rows c reader
  = render_pages c (map (firstn 8) (non_blank_rows reader)).
Proof.
  induction reader as [|row reader IH]; intros c Hlen; [reflexivity|].
  unfold non_blank_rows in *. cbn [filter Comic.draw_rows] in *.
  destruct (is_blank_row row); cbn [negb] in *; [now apply IH|].
  assert (Hrow : (List.length row <? 8)%nat = false)
    by (apply Nat.ltb_ge, Hlen; now left).
  rewrite Hrow. cbn [map render_pages].
  destruct (Comic.draw_label c (firstn 8 row)); cbn [bind]; [|reflexivity].
  apply IH. intros r Hr. apply Hlen. now right.
Qed.

Lemma comic_draw_rows_pages reader : forall c c',
  Comic.draw_rows c reader = Ok c' ->
  page_count c' = (page_count c + List.length (non_blank_rows reader))%nat.
Proof.
  induction reader as [|row reader IH]; intros c c' E.
  - injection E as <-. simpl. lia.
  - unfold non_blank_rows. cbn [filter Comic.draw_rows] in *.
    fold (non_blank_rows reader).
    destruct (is_blank_row row); cbn [negb]; [now apply IH|].
    destruct (List.length row <? 8)%nat; [discriminate|].
    destruct (Comic.draw_label c (firstn 8 row)) as [c1|e] eqn:E1;
      [|discriminate].
    cbn [bind] in E. apply IH in E. rewrite E.
    unfold showPage. rewrite page_count_call.
    rewrite (comic_draw_label_pages _ _ _ E1). simpl. lia.
Qed.

End PageFacts.

Section CardPageFacts.
Context {lib : Reportlab}.

Lemma card_draw_title_lines_pages lines : forall c i x y,
  page_count (fst (Card.draw_title_lines c lines i x y)) = page_count c.
Proof.
  induction lines as [|line lines IH]; intros c i x y; [reflexivity|].
  cbn [Card.draw_title_lines]. rewrite IH.
  unfold drawString. rewrite page_count_call. lia.
Qed.

Lemma card_draw_bullet_lines_pages lines : forall c i n x y,
  page_count (fst (Card.draw_bullet_lines c lines i n x y)) = page_count c.
Proof.
  induction lines as [|line lines IH]; intros c i n x y; [reflexivity|].
  cbn [Card.draw_bullet_lines]. rewrite IH.
  unfold drawString. rewrite page_count_call. lia.
Qed.

Lemma card_draw_bullets_pages bullets : forall c x w y,
  page_count (fst (Card.draw_bullets c bullets x w y)) = page_count c.
Proof.
  induction bullets as [|text bullets IH]; intros c x w y; [reflexivity|].
  cbn [Card.draw_bullets].
  pose proof (card_draw_bullet_lines_pages
                (Card.wrap_text text Card.BODY_FONT Card.BODY_SIZE w) c 0
                (List.length
                   (Card.wrap_text text Card.BODY_FONT Card.BODY_SIZE w))
                x y) as H.
  destruct (Card.draw_bullet_lines c _ 0 _ x y) as [c1 y1].
  rewrite IH. exact H.
Qed.

Lemma card_draw_description_pages c row :
  page_count (fst (Card.draw_description c row)) = page_count c.
Proof.
  unfold Card.draw_description.
  match goal with
  | |- context [Card.draw_title_lines ?c0 ?l ?i ?x ?y] =>
      pose proof (card_draw_title_lines_pages l c0 i x y) as Ht;
      destruct (Card.draw_title_lines c0 l i x y) as [c1 y1]
  end.
  match goal with
  | |- context [Card.draw_bullets ?c0 ?l ?x ?w ?y] =>
      pose proof (card_draw_bullets_pages l c0 x w y) as Hb;
      destruct (Card.draw_bullets c0 l x w y) as [c2 y2]
  end.
  cbn [fst] in *. rewrite Hb.
  unfold setFont at 1. rewrite page_count_call, Ht.
  unfold setFont, setLineWidth, setStrokeColor, setFillColor.
  rewrite !page_count_call. lia.
Qed.

(** [draw_label] stays on the current page. *)
Lemma card_draw_label_pages c row c' :
  Card.draw_label c row = Ok c' -> page_count c' = page_count c.
Proof.
  unfold Card.draw_label.
  pose proof (card_draw_description_pages c row) as Hd.
  destruct (Card.draw_description c row) as [c1 y1]. cbn [fst] in Hd.
  destruct (Code128 _ _ _) as [bc|e]; [|discriminate].
  cbn [bind]. intros E. injection E as <-.
  unfold drawCentredString, setFont, drawOn.
  rewrite !page_count_call. lia.
Qed.

Lemma card_draw_rows_pages rows : forall c c',
  Card.draw_rows c rows = Ok c' ->
  page_count c' = (page_count c + List.length rows)%nat.
Proof.
  induction rows as [|row rows IH]; intros c c' E.
  - injection E as <-. simpl. lia.
  - cbn [Card.draw_rows] in E.
    destruct (Card.draw_label c row) as [c1|e] eqn:E1; [|discriminate].
    cbn [bind] in E. apply IH in E. rewrite E.
    unfold showPage. rewrite page_count_call.
    rewrite (card_draw_label_pages _ _ _ E1). simpl. lia.
Qed.

(** A card run that saves a document saves one page per non-blank row. *)
Lemma card_main_pages reader doc :
  saved (effects (Card.main (Some (Ok reader)))) = Some doc ->
  page_count doc = List.length (non_blank_rows reader).
Proof.
  unfold Card.main. rewrite card_read_rows.
  destruct (map card_record (non_blank_rows reader)) as [|r rs] eqn:Er;
    [discriminate|].
  destruct (Card.draw_rows Canvas (r :: rs)) as [c|e] eqn:E; [|discriminate].
  simpl. intros H. injection H as <-.
  apply card_draw_rows_pages in E. rewrite E, <- Er, length_map.
  reflexivity.
Qed.

End CardPageFacts.

Section PokemonPageFacts.
Context {lib : Reportlab}.

Lemma pokemon_draw_title_lines_pages lines : forall c i x y,
  page_count (fst (Pokemon.draw_title_lines c lines i x y)) = page_count c.
Proof.
  induction lines as [|line lines IH]; intros c i x y; [reflexivity|].
  cbn [Pokemon.draw_title_lines]. rewrite IH.
  unfold drawString. rewrite page_count_call. lia.
Qed.

Lemma pokemon_draw_bullet_lines_pages lines : forall c i n x y,
  page_count (fst (Pokemon.draw_bullet_lines c lines i n x y)) = page_count c.
Proof.
  induction lines as [|line lines IH]; intros c i n x y; [reflexivity|].
  cbn [Pokemon.draw_bullet_lines]. rewrite IH.
  unfold drawString. rewrite page_count_call. lia.
Qed.

Lemma pokemon_draw_bullets_pages bullets : forall c x w y,
  page_count (fst (Pokemon.draw_bullets c bullets x w y)) = page_count c.
Proof.
  induction bullets as [|text bullets IH]; intros c x w y; [reflexivity|].
  cbn [Pokemon.draw_bullets].
  pose proof (pokemon_draw_bullet_lines_pages
                (Pokemon.wrap_text text Pokemon.BODY_FONT Pokemon.BODY_SIZE w) c 0
                (List.length
                   (Pokemon.wrap_text text Pokemon.BODY_FONT Pokemon.BODY_SIZE w))
                x y) as H.
  destruct (Pokemon.draw_bullet_lines c _ 0 _ x y) as [c1 y1].
  rewrite IH. exact H.
Qed.

Lemma pokemon_draw_description_pages c row :
  page_count (fst (Pokemon.draw_description c row)) = page_count c.
Proof.
  unfold Pokemon.draw_description.
  match goal with
  | |- context [Pokemon.draw_title_lines ?c0 ?l ?i ?x ?y] =>
      pose proof (pokemon_draw_title_lines_pages l c0 i x y) as Ht;
      destruct (Pokemon.draw_title_lines c0 l i x y) as [c1 y1]
  end.
  match goal with
  | |- context [Pokemon.draw_bullets ?c0 ?l ?x ?w ?y] =>
      pose proof (pokemon_draw_bullets_pages l c0 x w y) as Hb;
      destruct (Pokemon.draw_bullets c0 l x w y) as [c2 y2]
  end.
  cbn [fst] in *. rewrite Hb.
  unfold setFont at 1. rewrite page_count_call, Ht.
  unfold setFont, setLineWidth, setStrokeColor, setFillColor.
  rewrite !page_count_call. lia.
Qed.

(** [draw_label] stays on the current page. *)
Lemma pokemon_draw_label_pages c row c' :
  Pokemon.draw_label c row = Ok c' -> page_count c' = page_count c.
Proof.
  unfold Pokemon.draw_label.
  pose proof (pokemon_draw_description_pages c row) as Hd.
  destruct (Pokemon.draw_description c row) as [c1 y1]. cbn [fst] in Hd.
  destruct (Code128 _ _ _) as [bc|e]; [|discriminate].
  cbn [bind]. intros E. injection E as <-.
  unfold drawCentredString, setFont, drawOn.
  rewrite !page_count_call. lia.
Qed.

Lemma pokemon_draw_rows_pages rows : forall c c',
  Pokemon.draw_rows c rows = Ok c' ->
  page_count c' = (page_count c + List.length rows)%nat.
Proof.
  induction rows as [|row rows IH]; intros c c' E.
  - injection E as <-. simpl. lia.
  - cbn [Pokemon.draw_rows] in E.
    destruct (Pokemon.draw_label c row) as [c1|e] eqn:E1; [|discriminate].
    cbn [bind] in E. apply IH in E. rewrite E.
    unfold showPage. rewrite page_count_call.
    rewrite (pokemon_draw_label_pages _ _ _ E1). simpl. lia.
Qed.

(** A Pokemon run that saves a document saves one page per non-blank row. *)
Lemma pokemon_main_pages reader doc :
  saved (effects (Pokemon.main (Some (Ok reader)))) = Some doc ->
  page_count doc = List.length (non_blank_rows reader).
Proof.
  unfold Pokemon.main. rewrite pokemon_read_rows.
  destruct (map pokemon_record (non_blank_rows reader)) as [|r rs] eqn:Er;
    [discriminate|].
  destruct (Pokemon.draw_rows Canvas (r :: rs)) as [c|e] eqn:E; [|discriminate].
  simpl. intros H. injection H as <-.
  apply pokemon_draw_rows_pages in E. rewrite E, <- Er, length_map.
  reflexivity.
Qed.

End PokemonPageFacts.

(** ** Runs of the scripts *)

Section RunTheorems.
Context {lib : Reportlab}.

(** C6.  In the comic script, for every input with a non-blank row of
    fewer than 8 fields, the run ends with an uncaught exception and saves
    no document; when the rows before that row are processed without
    error, the exception is the [ValueError] with the schema message; and
    the rows after it play no part (the run is the same without them). *)
Theorem comic_short_row_aborts
    (pre post : list (list str)) (row : list str) :
  is_blank_row row = false -> (List.length row < 8)%nat ->
  let r := Comic.main (Some (pre ++ row :: post)) in
  (exists e, status r = Uncaught e)
  /\ effects r = []
  /\ saved (effects r) = None
  /\ (forall c, Comic.draw_rows Canvas pre = Ok c ->
        status r = Uncaught (ValueError Comic.SCHEMA_MSG))
  /\ r = Comic.main (Some (pre ++ [row])).
Proof.
  intros Hnb Hlen r.
  assert (Hrow : forall c rest,
             Comic.draw_rows c (row :: rest)
             = Raise (ValueError Comic.SCHEMA_MSG)).
  { intros c rest. cbn [Comic.draw_rows]. rewrite Hnb.
    apply Nat.ltb_lt in Hlen. now rewrite Hlen. }
  subst r. unfold Comic.main. rewrite !comic_draw_rows_app.
  destruct (Comic.draw_rows Canvas pre) as [c|e]; cbn [bind].
  - rewrite !Hrow. cbn [status effects saved].
    repeat split; eauto.
  - cbn [status effects saved]. repeat split; eauto.
    intros c E. discriminate.
Qed.


(** C8, as the scripts have it.  The card readers yield exactly one
    record per non-blank row, in input order, and skip the blank rows; in
    the comic script the rows drawn are the first 8 fields of each
    non-blank row, in input order, provided every non-blank row has at
    least 8 fields; and in all three scripts a saved document has exactly
    one page per non-blank row. *)
Theorem one_page_per_non_blank_row (reader : list (list str)) :
  (Card.read_rows (Ok reader) = Ok (map card_record (non_blank_rows reader))
   /\ Pokemon.read_rows (Ok reader)
      = Ok (map pokemon_record (non_blank_rows reader)))
  /\ ((forall row, In row (non_blank_rows reader) ->
         (8 <= List.length row)%nat) ->
      Comic.draw_rows Canvas reader
      = render_pages Canvas (map (firstn 8) (non_blank_rows reader)))
  /\ (forall doc,
        saved (effects (Card.main (Some (Ok reader)))) = Some doc
        \/ saved (effects (Pokemon.main (Some (Ok reader)))) = Some doc
        \/ saved (effects (Comic.main (Some reader))) = Some doc ->
        page_count doc = List.length (non_blank_rows reader)).
Proof.
  split; [split; [apply card_read_rows|apply pokemon_read_rows]|].
  split; [apply comic_draw_rows_render|].
  intros doc [H|[H|H]].
  - now apply card_main_pages.
  - now apply pokemon_main_pages.
  - unfold Comic.main in H.
    destruct (Comic.draw_rows Canvas reader) as [c|e] eqn:E; [|discriminate].
    simpl in H. injection H as <-.
    now rewrite (comic_draw_rows_pages _ _ _ E).
Qed.

End RunTheorems.

(** ** The theorems on concrete inputs *)

Ltac variant_chars :=
  repeat (constructor; [first [left; reflexivity | right; reflexivity]|]);
  constructor.

Ltac variant_rows := repeat (constructor; [variant_chars|]); constructor.

(** C4 at a 12-digit barcode: the symbol is 90.18 points wide, the ratio
    to the target width is above the cap, and the scale is the cap. *)
Lemma comic_barcode_scaled_and_centred_witness :
  let r := @Comic.draw_label fixed_pitch Canvas comic_row in
  let c' := match r with Ok c => c | Raise _ => [] end in
  r = Ok c'
  /\ exists c1 bc bc_x bc_y sc footer,
       c' = c1 ++ [SaveState; Translate bc_x bc_y; Scale sc sc;
                   DrawOn bc 0 0; RestoreState;
                   SetFont "Helvetica-Bold" 10;
                   DrawCentredString (Comic.PAGE_W / 2) (bc_y - 12) footer]
       /\ bc_width bc == 90.18
       /\ sc == 1.8
       /\ bc_x + bc_width bc * sc / 2 == 144.
Proof.
  intros r c'.
  assert (H : r = Ok c') by (vm_compute; reflexivity).
  split; [exact H|].
  destruct (@comic_barcode_scaled_and_centred fixed_pitch Canvas comic_row c' H)
    as (c1 & y & bc & footer & Hbc & _ & Hc' & _ & _ & Hmid & _).
  injection Hbc as <-.
  eexists c1, _, _, _, _, footer. split; [exact Hc'|].
  split; [reflexivity|]. split; [reflexivity|].
  rewrite Hmid. reflexivity.
Defined.

(** C10 at a row typed with an en dash and a non-breaking space. *)
Lemma comic_draw_label_normalizes_witness :
  Forall2 ascii_variant comic_row_typographic comic_row
  /\ @Comic.draw_label fixed_pitch Canvas comic_row_typographic
     = @Comic.draw_label fixed_pitch Canvas comic_row.
Proof.
  assert (H : Forall2 ascii_variant comic_row_typographic comic_row)
    by (unfold ascii_variant; variant_rows).
  split; [exact H|].
  exact (proj2 (proj2 (@comic_draw_label_normalizes fixed_pitch Canvas
                         comic_row_typographic comic_row)) H).
Defined.

(** C6 at a 7-column row between two good rows. *)
Lemma comic_short_row_aborts_witness :
  let r := @Comic.main fixed_pitch
             (Some ([comic_row] ++ comic_row_short :: [comic_row])) in
  is_blank_row comic_row_short = false
  /\ (List.length comic_row_short < 8)%nat
  /\ status r = Uncaught (ValueError Comic.SCHEMA_MSG)
  /\ saved (effects r) = None.
Proof.
  intros r.
  assert (Hnb : is_blank_row comic_row_short = false) by reflexivity.
  assert (Hlen : (List.length comic_row_short < 8)%nat) by (simpl; lia).
  split; [exact Hnb|]. split; [exact Hlen|].
  destruct (@comic_short_row_aborts fixed_pitch [comic_row] [comic_row]
              comic_row_short Hnb Hlen) as (_ & _ & Hs & Hv & _).
  split; [|exact Hs].
  destruct (@Comic.draw_rows fixed_pitch Canvas [comic_row]) as [c|e] eqn:E;
    [exact (Hv c eq_refl)|].
  vm_compute in E. discriminate.
Defined.



(** C8 as stated fails for the comic script: a non-blank row of 7
    columns yields no page, the run raises and nothing is saved. *)
Lemma comic_short_row_yields_no_page :
  let reader := [comic_row_short] in
  List.length (non_blank_rows reader) = 1%nat
  /\ @Comic.main fixed_pitch (Some reader)
     = Run (Uncaught (ValueError Comic.SCHEMA_MSG)) []
  /\ ~ (exists doc,
          saved (effects (@Comic.main fixed_pitch (Some reader))) = Some doc
          /\ page_count doc = List.length (non_blank_rows reader)).
Proof.
  intros reader. split; [reflexivity|]. split; [reflexivity|].
  intros (doc & H & _). discriminate.
Qed.

(** C8 at an input of two rows of 8 columns among blank rows. *)
Lemma one_page_per_non_blank_row_witness :
  let reader := [[]; comic_row; [lit " "; lit ""]; comic_row_typographic] in
  let r := @Comic.main fixed_pitch (Some reader) in
  let doc := match saved (effects r) with Some d => d | None => [] end in
  (forall row, In row (non_blank_rows reader) -> (8 <= List.length row)%nat)
  /\ saved (effects r) = Some doc
  /\ @Comic.draw_rows fixed_pitch Canvas reader
     = @render_pages fixed_pitch Canvas [comic_row; comic_row_typographic]
  /\ page_count doc = 2%nat.
Proof.
  intros reader r doc.
  assert (Hlen : forall row, In row (non_blank_rows reader) ->
                   (8 <= List.length row)%nat).
  { intros row [<-|[<-|[]]]; simpl; lia. }
  assert (Hdoc : saved (effects r) = Some doc) by (vm_compute; reflexivity).
  destruct (@one_page_per_non_blank_row fixed_pitch reader)
    as (_ & Hrender & Hpages).
  split; [exact Hlen|]. split; [exact Hdoc|].
  split; [exact (Hrender Hlen)|].
  exact (Hpages doc (or_intror (or_intror Hdoc))).
Defined.

(** ** Further properties of the comic text wrapper *)

Section StackFacts.
Context {lib : Reportlab}.

Lemma count_S (n : nat) : count (S n) == count n + 1.
Proof.
  unfold count. rewrite Nat2Z.inj_succ. unfold Z.succ.
  now rewrite inject_Z_plus.
Qed.

Lemma count_nonneg (n : nat) : 0 <= count n.
Proof.
  unfold count. change 0 with (inject_Z 0). rewrite <- Zle_Qle. lia.
Qed.

Lemma count_le (n m : nat) : (n <= m)%nat -> count n <= count m.
Proof.
  intros H. unfold count. rewrite <- Zle_Qle. lia.
Qed.

Lemma call_prefix (c k : canvas) (o : op) : call (c ++ k) o = c ++ call k o.
Proof. unfold call. now rewrite app_assoc. Qed.

Lemma stack_lines_prefix lines : forall c k x y leading font size,
  stack_lines (c ++ k) lines x y leading font size
  = (c ++ fst (stack_lines k lines x y leading font size),
     snd (stack_lines k lines x y leading font size)).
Proof.
  induction lines as [|line lines IH]; intros c k x y leading font size.
  - reflexivity.
  - cbn [stack_lines]. unfold drawString, setFont.
    rewrite !call_prefix. apply IH.
Qed.

Lemma stack_lines_cursor lines : forall c x y leading font size,
  snd (stack_lines c lines x y leading font size)
  == y - count (List.length lines) * leading.
Proof.
  induction lines as [|line lines IH]; intros c x y leading font size.
  - simpl. unfold count. simpl. ring.
  - cbn [stack_lines List.length]. rewrite IH, count_S. ring.
Qed.

Lemma stack_lines_drawn lines : forall c x y leading font size,
  drawn_lines (fst (stack_lines c lines x y leading font size))
  = drawn_lines c ++ lines.
Proof.
  induction lines as [|line lines IH]; intros c x y leading font size.
  - simpl. now rewrite app_nil_r.
  - cbn [stack_lines]. rewrite IH. unfold drawString, setFont, call.
    rewrite !drawn_lines_app. simpl. rewrite app_nil_r, <- app_assoc.
    reflexivity.
Qed.

Variables (x width leading : Q) (font_name : string) (font_size : Q).

Lemma wrap_words_stack words : forall cur c y c' y' line',
  Forall is_word cur -> Forall is_word words ->
  Comic.wrap_words c words (join cur) x y width leading font_name font_size
    = (c', y', line') ->
  stack_lines c' (if truthy line' then [line'] else []) x y' leading
    font_name font_size
  = stack_lines c
      (greedy_lines (fits_width font_name font_size width) cur words)
      x y leading font_name font_size.
Proof.
  induction words as [|w words IH]; intros cur c y c' y' line' Hcur Hws E.
  - simpl in E. injection E as <- <- <-.
    rewrite truthy_join by exact Hcur. simpl. destruct cur; reflexivity.
  - inversion Hws as [|? ? Hw Hws']; subst.
    cbn [Comic.wrap_words] in E.
    rewrite (strip_tentative cur w Hcur Hw) in E.
    cbn [greedy_lines].
    change (Qle_bool (stringWidth (join (cur ++ [w])) font_name font_size)
              width)
      with (fits_width font_name font_size width (join (cur ++ [w]))) in E.
    destruct (fits_width font_name font_size width (join (cur ++ [w]))).
    + apply (IH (cur ++ [w]) c y c' y' line'); [|exact Hws'|exact E].
      apply Forall_app. split; [exact Hcur|now constructor].
    + change w with (join [w]) in E.
      apply (IH [w]) in E; [|now constructor|exact Hws'].
      rewrite E. reflexivity.
Qed.

(** [wrap_text] is: compute the greedy lines, then stack them. *)
Lemma wrap_text_stack c text y :
  Comic.wrap_text c text x y width leading font_name font_size
  = stack_lines c (greedy_wrap text font_name font_size width)
      x y leading font_name font_size.
Proof.
  unfold Comic.wrap_text, greedy_wrap.
  destruct (Comic.wrap_words c (split text) [] x y width leading
              font_name font_size) as [[c' y'] line'] eqn:E.
  change (@nil char) with (join []) in E.
  apply wrap_words_stack in E; [|constructor|apply split_words].
  rewrite <- E. destruct (truthy line'); reflexivity.
Qed.

Lemma wrap_text_prefix c k text y :
  Comic.wrap_text (c ++ k) text x y width leading font_name font_size
  = (c ++ fst (Comic.wrap_text k text x y width leading font_name font_size),
     snd (Comic.wrap_text k text x y width leading font_name font_size)).
Proof. rewrite !wrap_text_stack. apply stack_lines_prefix. Qed.

Lemma wrap_text_cursor c text y :
  snd (Comic.wrap_text c text x y width leading font_name font_size)
  == y - count (List.length (greedy_wrap text font_name font_size width))
         * leading.
Proof. rewrite wrap_text_stack. apply stack_lines_cursor. Qed.

End StackFacts.

Section GreedyCount.
Variable fits : str -> bool.

Lemma greedy_lines_count words : forall cur,
  (List.length (greedy_lines fits cur words) <= List.length words + 1)%nat.
Proof.
  induction words as [|w words IH]; intros cur.
  - simpl. destruct cur; simpl; lia.
  - cbn [greedy_lines]. destruct (fits (join (cur ++ [w]))).
    + specialize (IH (cur ++ [w])). simpl. lia.
    + specialize (IH [w]). simpl. lia.
Qed.

Lemma greedy_lines_some w words : forall cur,
  greedy_lines fits cur (w :: words) <> [].
Proof.
  revert w. induction words as [|v words IH]; intros w cur.
  - cbn [greedy_lines]. destruct (fits _).
    + destruct (cur ++ [w]) eqn:E; [|discriminate].
      destruct cur; discriminate.
    + discriminate.
  - cbn [greedy_lines]. destruct (fits (join (cur ++ [w]))).
    + apply (IH v (cur ++ [w])).
    + discriminate.
Qed.

End GreedyCount.

Section BlankText.

Lemma split_from_some s : forall cur, cur <> [] -> split_from cur s <> [].
Proof.
  induction s as [|c s IH]; intros cur Hcur; simpl.
  - destruct cur; [congruence|discriminate].
  - destruct (isspace c).
    + destruct cur; [congruence|discriminate].
    + apply IH. destruct cur; discriminate.
Qed.

(** [s.split()] is empty exactly for a blank [s]. *)
Lemma split_blank s : is_blank s = true -> split s = [].
Proof.
  unfold split, is_blank. induction s as [|c s IH]; [reflexivity|].
  simpl. intros H. apply andb_true_iff in H. destruct H as [Hc Hs].
  rewrite Hc. now apply IH.
Qed.

Lemma split_non_blank s : is_blank s = false -> split s <> [].
Proof.
  unfold split, is_blank. induction s as [|c s IH]; [discriminate|].
  simpl. destruct (isspace c); simpl.
  - exact IH.
  - intros _. now apply split_from_some.
Qed.

End BlankText.

Section WrapLayoutTheorems.
Context {lib : Reportlab}.

(** X1.  The comic [wrap_text] computes the greedy lines of the text and
    stacks them: for each line in turn it selects the font and draws the
    line at [x] and the current height, then moves down by [leading].  It
    only appends to the canvas, and what it appends does not depend on
    what the canvas holds. *)
Theorem comic_wrap_text_layout
    (c : canvas) (text : str) (x y width leading : Q)
    (font_name : string) (font_size : Q) :
  Comic.wrap_text c text x y width leading font_name font_size
  = stack_lines c (greedy_wrap text font_name font_size width)
      x y leading font_name font_size
  /\ Comic.wrap_text c text x y width leading font_name font_size
     = (c ++ fst (Comic.wrap_text Canvas text x y width leading
                    font_name font_size),
        snd (Comic.wrap_text Canvas text x y width leading
               font_name font_size)).
Proof.
  split; [apply wrap_text_stack|].
  rewrite <- (app_nil_r c) at 1. apply wrap_text_prefix.
Qed.

(** X2.  The cursor returned by the comic [wrap_text] is the start
    height minus [leading] times the number of lines drawn; there are at
    most one more lines than words, so for a leading that is not negative
    the cursor never rises and drops by at most (words + 1) leadings. *)
Theorem comic_wrap_text_cursor
    (c : canvas) (text : str) (x y width leading : Q)
    (font_name : string) (font_size : Q) :
  let lines := greedy_wrap text font_name font_size width in
  let y' :=
    snd (Comic.wrap_text c text x y width leading font_name font_size) in
  y' == y - count (List.length lines) * leading
  /\ (List.length lines <= List.length (split text) + 1)%nat
  /\ (0 <= leading ->
      y - count (List.length (split text) + 1) * leading <= y' /\ y' <= y).
Proof.
  intros lines y'.
  assert (Hy : y' == y - count (List.length lines) * leading)
    by apply wrap_text_cursor.
  assert (Hn : (List.length lines <= List.length (split text) + 1)%nat)
    by apply greedy_lines_count.
  split; [exact Hy|]. split; [exact Hn|].
  intros Hl. rewrite Hy. split.
  - apply Qplus_le_r, Qopp_le_compat, Qmult_le_compat_r; [|exact Hl].
    now apply count_le.
  - rewrite <- (Qplus_0_r y) at 2. apply Qplus_le_r.
    setoid_replace 0 with (- 0) by reflexivity.
    apply Qopp_le_compat, Qmult_le_0_compat; [apply count_nonneg|exact Hl].
Qed.

(** X3.  For a blank text (empty or whitespace only) the comic
    [wrap_text] draws nothing and returns the cursor unchanged; for any
    other text it draws at least one line. *)
Theorem comic_wrap_text_blank
    (c : canvas) (text : str) (x y width leading : Q)
    (font_name : string) (font_size : Q) :
  (is_blank text = true ->
   Comic.wrap_text c text x y width leading font_name font_size = (c, y))
  /\ (is_blank text = false ->
      exists line rest,
        drawn_lines
          (fst (Comic.wrap_text Canvas text x y width leading
                  font_name font_size))
        = line :: rest).
Proof.
  split; intros Hb.
  - rewrite wrap_text_stack. unfold greedy_wrap.
    now rewrite (split_blank text Hb).
  - rewrite wrap_text_greedy. unfold greedy_wrap. simpl app.
    pose proof (split_non_blank text Hb) as Hne.
    destruct (split text) as [|w words]; [congruence|].
    pose proof (greedy_lines_some (fits_width font_name font_size width)
                  w words []) as Hsome.
    destruct (greedy_lines _ [] (w :: words)) as [|line rest];
      [congruence|].
    now exists line, rest.
Qed.

(** X4.  Every line drawn by the comic [wrap_text] is made of words
    separated by single spaces: it has no whitespace at its ends, and
    splitting it and joining the words again gives the same line.  Runs of
    whitespace of the text, tabs and line breaks included, are collapsed. *)
Theorem comic_wrap_text_single_spaces
    (text : str) (x y width leading : Q)
    (font_name : string) (font_size : Q) (line : str) :
  In line
    (drawn_lines
       (fst (Comic.wrap_text Canvas text x y width leading
               font_name font_size))) ->
  strip line = line /\ join (split line) = line
  /\ Forall is_word (split line).
Proof.
  rewrite wrap_text_greedy. simpl app. unfold greedy_wrap. intros Hin.
  pose proof (greedy_lines_of_words (fits_width font_name font_size width)
                (split text) [] (Forall_nil _) (split_words text)
                (or_introl (Nat.le_0_l 1))) as Hall.
  rewrite Forall_forall in Hall.
  destruct (Hall line Hin) as (g & -> & Hg & _ & _).
  split; [|split].
  - apply strip_clean; [now apply join_starts_clean|now apply join_ends_clean].
  - now rewrite split_join.
  - apply split_words.
Qed.

End WrapLayoutTheorems.

(** ** Further properties of the comic label and run *)

Section ComicFrameFacts.
Context {lib : Reportlab}.

Lemma emit_field_prefix label font x (c k : canvas) (y : Q) field :
  emit_field label font x (@pair canvas Q (c ++ k) y) field
  = @pair canvas Q
      (c ++ fst (emit_field label font x (@pair canvas Q k y) field))
      (snd (emit_field label font x (@pair canvas Q k y) field)).
Proof.
  unfold emit_field. destruct (is_blank field); [reflexivity|].
  cbn [fst snd]. rewrite wrap_text_prefix.
  destruct (Comic.wrap_text k _ x y Comic.MAX_TEXT_W 11 font 11).
  reflexivity.
Qed.

Lemma emit_fields_prefix font x fields : forall (c k : canvas) (y : Q),
  fold_left (emit_field [] font x) fields (@pair canvas Q (c ++ k) y)
  = @pair canvas Q
      (c ++ fst (fold_left (emit_field [] font x) fields
                   (@pair canvas Q k y)))
      (snd (fold_left (emit_field [] font x) fields (@pair canvas Q k y))).
Proof.
  induction fields as [|f fields IH]; intros c k y; [reflexivity|].
  cbn [fold_left]. rewrite emit_field_prefix.
  destruct (emit_field [] font x (k, y) f) as [k1 y1]. cbn [fst snd].
  apply IH.
Qed.

Lemma setFont_prefix (c k : canvas) font size :
  setFont (c ++ k) font size = c ++ setFont k font size.
Proof. apply call_prefix. Qed.

Lemma draw_price_and_barcode_prefix c k x y price_display inv_id barcode_num :
  Comic.draw_price_and_barcode (c ++ k) x y price_display inv_id barcode_num
  = match Comic.draw_price_and_barcode k x y price_display inv_id
            barcode_num with
    | Ok ops => Ok (c ++ ops)
    | Raise e => Raise e
    end.
Proof.
  unfold Comic.draw_price_and_barcode.
  destruct (Code128 barcode_num (0.30 * inch) None) as [bc|e];
    [|reflexivity].
  cbn [bind]. destruct (Qeq_bool (bc_width bc) 0); [reflexivity|].
  cbn [bind].
  unfold drawCentredString, setFont, restoreState, drawOn, scale, translate,
    saveState, drawString.
  rewrite !call_prefix. reflexivity.
Qed.

(** [draw_label] appends to the canvas what it draws on an empty one. *)
Lemma comic_draw_label_prefix c k row :
  Comic.draw_label (c ++ k) row
  = match Comic.draw_label k row with
    | Ok ops => Ok (c ++ ops)
    | Raise e => Raise e
    end.
Proof.
  destruct row as [|f0 [|f1 [|f2 [|f3 [|f4 [|f5 [|f6 [|f7 [|f8 rest]]]]]]]]];
    try reflexivity.
  rewrite !draw_label_fields. cbv zeta.
  rewrite (setFont_prefix c k), wrap_text_prefix.
  destruct (Comic.wrap_text (setFont k "Helvetica-Bold" 12)
              (Comic.normalize_text f0) Comic.MARGIN
              (Comic.PAGE_H - Comic.MARGIN) Comic.MAX_TEXT_W 13
              "Helvetica-Bold" 12) as [k0 y0].
  cbn [fst snd]. rewrite setFont_prefix, emit_fields_prefix.
  destruct (fold_left (emit_field [] "Helvetica" Comic.MARGIN) [f1; f2; f3]
              (setFont k0 "Helvetica" 11, y0 + 2 - 3)) as [k2 y2].
  cbn [fst snd]. rewrite emit_field_prefix.
  destruct (emit_field (lit "Publisher: ") "Helvetica-Oblique" Comic.MARGIN
              (k2, y2) f4) as [k3 y3].
  cbn [fst snd]. apply draw_price_and_barcode_prefix.
Qed.

Lemma comic_draw_rows_ops reader : forall c c',
  Comic.draw_rows c reader = Ok c' ->
  c' = c ++ flat_map (fun row => label_ops row ++ [ShowPage])
              (non_blank_rows reader)
  /\ Forall (fun row => exists ops,
               Comic.draw_label Canvas (firstn 8 row) = Ok ops)
       (non_blank_rows reader).
Proof.
  induction reader as [|row reader IH]; intros c c' E.
  - injection E as <-. simpl. rewrite app_nil_r. split; constructor.
  - unfold non_blank_rows. cbn [filter Comic.draw_rows] in *.
    fold (non_blank_rows reader).
    destruct (is_blank_row row); cbn [negb]; [now apply IH|].
    destruct (List.length row <? 8)%nat; [discriminate|].
    rewrite <- (app_nil_r c) in E at 1.
    rewrite comic_draw_label_prefix in E.
    destruct (Comic.draw_label [] (firstn 8 row)) as [ops|e] eqn:E1;
      [|discriminate].
    cbn [bind] in E. apply IH in E. destruct E as [-> Hall].
    split.
    + cbn [flat_map]. unfold label_ops, Canvas. rewrite E1.
      unfold showPage, call. rewrite <- !app_assoc. reflexivity.
    + constructor; [now exists ops|exact Hall].
Qed.

End ComicFrameFacts.

Section ComicRunFacts.
Context {lib : Reportlab}.

Lemma emit_field_cursor label font x st field :
  snd (emit_field label font x st field)
  == snd st - field_drop label font field.
Proof.
  unfold emit_field, field_drop. destruct (is_blank field); [ring|].
  pose proof (wrap_text_cursor x Comic.MAX_TEXT_W 11 font 11 (fst st)
                (BULLET :: SPACE :: label
                 ++ strip (Comic.normalize_text field)) (snd st)) as H.
  destruct (Comic.wrap_text (fst st) _ x (snd st) Comic.MAX_TEXT_W 11 font 11)
    as [c1 y1].
  cbn [snd] in *. rewrite H. ring.
Qed.


End ComicRunFacts.

Section ComicRunTheorems.
Context {lib : Reportlab}.

(** X5.  What the comic [draw_label] draws, and whether it raises, does
    not depend on the canvas it is given: on a canvas [c] it appends to
    [c] exactly what it draws on a fresh canvas. *)
Theorem comic_label_is_appended (c : canvas) (row : list str) :
  Comic.draw_label c row
  = match Comic.draw_label Canvas row with
    | Ok ops => Ok (c ++ ops)
    | Raise e => Raise e
    end.
Proof.
  rewrite <- (app_nil_r c) at 1. apply comic_draw_label_prefix.
Qed.

(** X6.  A document saved by the comic script is the concatenation, over
    the non-blank rows in input order, of the label of the row (drawn from
    its first 8 fields alone) followed by one page break; every such label
    was drawn without error. *)
Theorem comic_document_is_pages_in_order
    (reader : list (list str)) (doc : canvas) :
  saved (effects (Comic.main (Some reader))) = Some doc ->
  doc = flat_map (fun row => label_ops row ++ [ShowPage])
          (non_blank_rows reader)
  /\ Forall (fun row => Comic.draw_label Canvas (firstn 8 row)
                        = Ok (label_ops row))
       (non_blank_rows reader).
Proof.
  unfold Comic.main.
  destruct (Comic.draw_rows Canvas reader) as [c|e] eqn:E; [|discriminate].
  simpl. intros H. injection H as <-.
  destruct (comic_draw_rows_ops reader Canvas c E) as [Hc Hall].
  split; [exact Hc|].
  refine (Forall_impl _ _ Hall). intros row [ops Hops].
  unfold label_ops. now rewrite Hops.
Qed.

(** X7.  The comic [draw_label] draws a row exactly when the row has 8
    fields and the barcode library accepts the normalized last field with
    a symbol of non-zero width.  Otherwise it raises: the unpacking error
    for a row that has not 8 fields, the error of the barcode library, or
    a division by zero for a symbol of width 0. *)
Theorem comic_draw_label_outcome (c : canvas) (row : list str) :
  let value := Comic.normalize_text (nth 7 row []) in
  match Comic.draw_label c row with
  | Ok _ =>
      List.length row = 8%nat
      /\ exists bc,
           Code128 value (0.30 * inch) None = Ok bc /\ ~ bc_width bc == 0
  | Raise e =>
      (List.length row <> 8%nat /\ e = ValueError "unpack")
      \/ (List.length row = 8%nat
          /\ (Code128 value (0.30 * inch) None = Raise e
              \/ exists bc,
                   Code128 value (0.30 * inch) None = Ok bc
                   /\ bc_width bc == 0 /\ e = ZeroDivisionError))
  end.
Proof.
  destruct row as [|f0 [|f1 [|f2 [|f3 [|f4 [|f5 [|f6 [|f7 [|f8 rest]]]]]]]]];
    try (left; split; [simpl; lia|reflexivity]).
  cbv zeta. rewrite draw_label_fields. cbv zeta. cbn [nth].
  unfold Comic.draw_price_and_barcode.
  destruct (Code128 (Comic.normalize_text f7) (0.30 * inch) None)
    as [bc|e] eqn:Hbc; cbn [bind].
  - destruct (Qeq_bool (bc_width bc) 0) eqn:Hw; cbn [bind].
    + right. split; [reflexivity|]. right. exists bc.
      repeat split. now apply Qeq_bool_iff.
    + split; [reflexivity|]. exists bc. split; [reflexivity|].
      intros H0. apply Qeq_bool_iff in H0. congruence.
  - right. split; [reflexivity|]. now left.
Qed.


(** X9.  When the comic [draw_label] draws a row of 8 fields, the lower
    edge of the barcode is at 198 points minus 13 per title line, minus 1,
    minus for each non-blank bullet and the publisher 11 per wrapped line
    plus 3, minus 39 for the price, inventory and number lines, minus the
    scaled height of the symbol; the footer is 12 points below. *)
Theorem comic_barcode_height
    (c : canvas) (title b1 b2 b3 publisher price inv_id barcode_num : str)
    (c' : canvas) :
  Comic.draw_label c
    [title; b1; b2; b3; publisher; price; inv_id; barcode_num] = Ok c' ->
  exists c1 bc bc_x bc_y footer,
    let sc := py_min (2.6 * inch / bc_width bc) 1.8 in
    let title_lines :=
      greedy_wrap (Comic.normalize_text title) "Helvetica-Bold" 12
        Comic.MAX_TEXT_W in
    Code128 (Comic.normalize_text barcode_num) (0.30 * inch) None = Ok bc
    /\ c' = c1 ++ [SaveState; Translate bc_x bc_y; Scale sc sc;
                DrawOn bc 0 0; RestoreState;
                SetFont "Helvetica-Bold" 10;
                DrawCentredString (Comic.PAGE_W / 2) (bc_y - 12) footer]
    /\ bc_y == 198 - 13 * count (List.length title_lines) - 1
               - field_drop [] "Helvetica" b1
               - field_drop [] "Helvetica" b2
               - field_drop [] "Helvetica" b3
               - field_drop (lit "Publisher: ") "Helvetica-Oblique" publisher
               - 39 - bc_height bc * sc.
Proof.
  intros E. rewrite draw_label_fields in E. cbv zeta in E.
  match type of E with
  | Comic.draw_price_and_barcode (fst ?S3) _ (snd ?S3) _ _ _ = _ =>
      assert (Hy : snd S3
                   == 198 - 13 * count
                                  (List.length
                                     (greedy_wrap (Comic.normalize_text title)
                                        "Helvetica-Bold" 12 Comic.MAX_TEXT_W))
                      - 1
                      - field_drop [] "Helvetica" b1
                      - field_drop [] "Helvetica" b2
                      - field_drop [] "Helvetica" b3
                      - field_drop (lit "Publisher: ") "Helvetica-Oblique"
                          publisher);
      [|remember S3 as st3 eqn:Hst3; clear Hst3]
  end.
  { rewrite emit_field_cursor. cbn [fold_left].
    rewrite !emit_field_cursor. cbn [snd].
    rewrite wrap_text_cursor. unfold Comic.PAGE_H, Comic.MARGIN, inch.
    ring. }
  unfold Comic.draw_price_and_barcode in E.
  destruct (Code128 (Comic.normalize_text barcode_num) (0.30 * inch) None)
    as [bc|e]; [|discriminate].
  cbn [bind] in E.
  destruct (Qeq_bool (bc_width bc) 0); [discriminate|].
  cbn [bind] in E.
  match type of E with
  | Ok (drawCentredString
          (setFont
             (restoreState
                (drawOn _ (scale (translate (saveState ?C) ?X ?Y) _ _)
                   _ _)) _ _) _ _ ?F) = _ =>
      remember C as c1 eqn:Hc1; exists c1, bc, X, Y, F
  end.
  cbv zeta. split; [reflexivity|]. split.
  - injection E as <-.
    unfold drawCentredString, setFont, restoreState, drawOn, scale, translate,
      saveState, call.
    rewrite <- !app_assoc. reflexivity.
  - rewrite Hy. ring.
Qed.

End ComicRunTheorems.

(** ** Further properties of normalization and of the card reader *)

Section StripFacts.

Lemma lstrip_starts_clean s : starts_clean (lstrip s).
Proof.
  induction s as [|c s IH]; [exact I|].
  simpl. destruct (isspace c) eqn:E; [exact IH|exact E].
Qed.

Lemma lstrip_snoc s c :
  isspace c = false -> lstrip (s ++ [c]) = lstrip s ++ [c].
Proof.
  intros Hc. induction s as [|a s IH]; simpl.
  - now rewrite Hc.
  - destruct (isspace a); [exact IH|reflexivity].
Qed.

Lemma rstrip_starts_clean s : starts_clean s -> starts_clean (rstrip s).
Proof.
  destruct s as [|c s]; [exact (fun _ => I)|].
  simpl. intros Hc. unfold rstrip. simpl rev.
  rewrite lstrip_snoc by exact Hc. rewrite rev_app_distr. simpl. exact Hc.
Qed.

Lemma rstrip_ends_clean s : ends_clean (rstrip s).
Proof.
  unfold ends_clean, rstrip. rewrite rev_involutive.
  apply lstrip_starts_clean.
Qed.

(** Stripping twice is stripping once. *)
Lemma strip_idem s : strip (strip s) = strip s.
Proof.
  apply strip_clean; unfold strip.
  - apply rstrip_starts_clean, lstrip_starts_clean.
  - apply rstrip_ends_clean.
Qed.

Lemma strip_blank s : is_blank s = true -> strip s = [].
Proof.
  intros H. pose proof (truthy_strip s) as Ht. rewrite H in Ht.
  destruct (strip s); [reflexivity|discriminate].
Qed.

Lemma blank_row_fields row i :
  is_blank_row row = true -> strip (nth i row []) = [].
Proof.
  intros Hb.
  assert (Hall : forallb (fun cell => negb (truthy (strip cell))) row = true)
    by (destruct row; [reflexivity|exact Hb]).
  rewrite forallb_forall in Hall.
  destruct (nth_in_or_default i row []) as [Hin| ->]; [|reflexivity].
  specialize (Hall _ Hin). apply negb_true_iff in Hall.
  destruct (strip (nth i row [])); [reflexivity|discriminate].
Qed.

Lemma card_record_firstn raw : card_record (firstn 7 raw) = card_record raw.
Proof. by_row_length raw. Qed.

Lemma card_record_is_stripped raw : card_record_stripped (card_record raw).
Proof.
  unfold card_record_stripped, stripped, card_record. simpl.
  repeat split; apply strip_idem.
Qed.

Lemma typographic_normalize_char c : typographic (normalize_char c) = false.
Proof.
  unfold normalize_char, typographic.
  destruct (c =? 0x2011)%N eqn:E1; [reflexivity|].
  destruct (c =? 0x2013)%N eqn:E2; [reflexivity|].
  destruct (c =? 0x2014)%N eqn:E3; [reflexivity|].
  destruct (c =? 0x2010)%N eqn:E5; [reflexivity|].
  destruct (c =? 0x00a0)%N eqn:E4; [reflexivity|].
  cbn [orb]. now rewrite E1, E2, E3, E4, E5.
Qed.

Lemma normalize_char_plain c : typographic c = false -> normalize_char c = c.
Proof.
  unfold normalize_char, typographic.
  destruct (c =? 0x2011)%N; [discriminate|].
  destruct (c =? 0x2013)%N; [discriminate|].
  destruct (c =? 0x2014)%N; [discriminate|].
  destruct (c =? 0x00a0)%N; [discriminate|].
  destruct (c =? 0x2010)%N; [discriminate|reflexivity].
Qed.

End StripFacts.

Section ReaderMoreTheorems.

(** X10.  [normalize_text] keeps the length of the string, leaves none of
    the five characters U+2011, U+2013, U+2014, U+00A0 and U+2010 in it,
    changes nothing when applied a second time, and returns a string
    without these characters as it is. *)
Theorem comic_normalize_text_properties (s : str) :
  List.length (Comic.normalize_text s) = List.length s
  /\ forallb (fun c => negb (typographic c)) (Comic.normalize_text s) = true
  /\ Comic.normalize_text (Comic.normalize_text s) = Comic.normalize_text s
  /\ (forallb (fun c => negb (typographic c)) s = true ->
      Comic.normalize_text s = s).
Proof.
  rewrite normalize_text_idem, normalize_text_map.
  split; [apply length_map|]. split; [|split; [reflexivity|]].
  - apply forallb_forall. intros c Hc. apply in_map_iff in Hc.
    destruct Hc as (a & <- & _). now rewrite typographic_normalize_char.
  - intros H. rewrite forallb_forall in H.
    rewrite <- (map_id s) at 2. apply map_ext_in. intros c Hc.
    apply normalize_char_plain. specialize (H c Hc).
    now apply negb_true_iff in H.
Qed.

(** X11.  Every field of every record returned by the card readers is
    stripped: stripping it again changes nothing, so no field starts or
    ends with whitespace. *)
Theorem card_records_are_stripped
    (reader : list (list str)) :
  (forall records, Card.read_rows (Ok reader) = Ok records ->
     Forall card_record_stripped records)
  /\ (forall records, Pokemon.read_rows (Ok reader) = Ok records ->
        Forall (fun r => card_record_stripped (to_card r)) records).
Proof.
  split; intros records E.
  - rewrite card_read_rows in E. injection E as <-.
    apply Forall_forall. intros r Hr. apply in_map_iff in Hr.
    destruct Hr as (raw & <- & _). apply card_record_is_stripped.
  - rewrite pokemon_read_rows in E. injection E as <-.
    apply Forall_forall. intros r Hr. apply in_map_iff in Hr.
    destruct Hr as (raw & <- & _).
    exact (card_record_is_stripped raw).
Qed.

(** X12.  In the card reader the columns after the seventh do not reach
    the record, but they count when the reader decides whether a row is
    blank: a row whose first seven columns are all blank and that has a
    non-blank later column yields a record with six empty fields. *)
Theorem card_columns_after_seventh (raw : list str) :
  is_blank_row raw = false ->
  Card.read_rows (Ok [raw]) = Ok [card_record (firstn 7 raw)]
  /\ (is_blank_row (firstn 7 raw) = true ->
      Card.read_rows (Ok [raw]) = Ok [Card.Label [] [] [] [] [] []]).
Proof.
  intros Hnb.
  assert (E : Card.read_rows (Ok [raw]) = Ok [card_record (firstn 7 raw)]).
  { rewrite card_read_rows. unfold non_blank_rows. simpl filter.
    rewrite Hnb. cbn [negb map]. now rewrite card_record_firstn. }
  split; [exact E|].
  intros Hb. rewrite E. unfold card_record.
  now rewrite !(blank_row_fields (firstn 7 raw)) by exact Hb.
Qed.

End ReaderMoreTheorems.

(** ** Further properties of the card label *)

Section CardLayoutFacts.
Context {lib : Reportlab}.

Lemma card_draw_description_block c row :
  Card.draw_description c row
  = card_text_block (setStrokeColor (setFillColor c "black") "black") row.
Proof. reflexivity. Qed.

Lemma pokemon_draw_description_block c row :
  Pokemon.draw_description c row
  = card_text_block
      (setLineWidth (setStrokeColor (setFillColor c "black") "black") 0.5)
      (to_card row).
Proof. reflexivity. Qed.

Lemma card_title_lines_cursor_from lines : forall c i x y,
  (0 < i)%nat ->
  snd (Card.draw_title_lines c lines i x y)
  == y - 11 * count (List.length lines).
Proof.
  induction lines as [|line lines IH]; intros c i x y Hi.
  - simpl. unfold count. simpl. ring.
  - cbn [Card.draw_title_lines List.length].
    destruct i as [|i]; [lia|]. cbn [Nat.eqb].
    rewrite IH by lia. rewrite count_S. unfold Card.TITLE_SIZE. ring.
Qed.

Lemma card_title_lines_cursor lines c x y :
  snd (Card.draw_title_lines c lines 0 x y)
  == y - title_drop (List.length lines).
Proof.
  destruct lines as [|line lines].
  - simpl. ring.
  - cbn [Card.draw_title_lines List.length title_drop Nat.eqb].
    rewrite card_title_lines_cursor_from by lia.
    unfold Card.TITLE_SIZE. ring.
Qed.

Lemma card_bullet_lines_cursor lines : forall c i n x y,
  (i + List.length lines = n)%nat ->
  snd (Card.draw_bullet_lines c lines i n x y)
  == y - bullet_drop (List.length lines).
Proof.
  induction lines as [|line lines IH]; intros c i n x y Hn.
  - simpl. ring.
  - cbn [Card.draw_bullet_lines List.length] in *.
    rewrite IH by lia.
    destruct lines as [|l2 lines].
    + replace (i =? n - 1)%nat with true
        by (symmetry; apply Nat.eqb_eq; simpl in Hn; lia).
      simpl. unfold Card.BODY_SIZE, Card.LINE_GAP, count. simpl. ring.
    + replace (i =? n - 1)%nat with false
        by (symmetry; apply Nat.eqb_neq; simpl in Hn; lia).
      cbn [List.length bullet_drop]. rewrite (count_S (List.length lines)).
      unfold Card.BODY_SIZE. ring.
Qed.

Lemma card_bullets_cursor bullets : forall c x w y,
  snd (Card.draw_bullets c bullets x w y)
  == y - total
           (map (fun text =>
                   bullet_drop
                     (List.length
                        (simpleSplit text Card.BODY_FONT Card.BODY_SIZE w)))
              bullets).
Proof.
  induction bullets as [|text bullets IH]; intros c x w y.
  - simpl. ring.
  - cbn [Card.draw_bullets map total fold_right].
    pose proof (card_bullet_lines_cursor
                  (Card.wrap_text text Card.BODY_FONT Card.BODY_SIZE w) c 0
                  (List.length
                     (Card.wrap_text text Card.BODY_FONT Card.BODY_SIZE w))
                  x y eq_refl) as H.
    destruct (Card.draw_bullet_lines c _ 0 _ x y) as [c1 y1].
    cbn [snd] in H. rewrite IH, H. unfold Card.wrap_text, total. ring.
Qed.

Lemma card_title_lines_prefix lines : forall (c k : canvas) i x y,
  Card.draw_title_lines (c ++ k) lines i x y
  = (c ++ fst (Card.draw_title_lines k lines i x y),
     snd (Card.draw_title_lines k lines i x y)).
Proof.
  induction lines as [|line lines IH]; intros c k i x y; [reflexivity|].
  cbn [Card.draw_title_lines]. unfold drawString. rewrite call_prefix.
  apply IH.
Qed.

Lemma card_bullet_lines_prefix lines : forall (c k : canvas) i n x y,
  Card.draw_bullet_lines (c ++ k) lines i n x y
  = (c ++ fst (Card.draw_bullet_lines k lines i n x y),
     snd (Card.draw_bullet_lines k lines i n x y)).
Proof.
  induction lines as [|line lines IH]; intros c k i n x y; [reflexivity|].
  cbn [Card.draw_bullet_lines]. unfold drawString. rewrite call_prefix.
  apply IH.
Qed.

Lemma card_bullets_prefix bullets : forall (c k : canvas) x w y,
  Card.draw_bullets (c ++ k) bullets x w y
  = (c ++ fst (Card.draw_bullets k bullets x w y),
     snd (Card.draw_bullets k bullets x w y)).
Proof.
  induction bullets as [|text bullets IH]; intros c k x w y; [reflexivity|].
  cbn [Card.draw_bullets]. rewrite card_bullet_lines_prefix.
  destruct (Card.draw_bullet_lines k _ 0 _ x y) as [k1 y1]. cbn [fst snd].
  apply IH.
Qed.

Lemma card_text_block_prefix (c k : canvas) row :
  card_text_block (c ++ k) row
  = (c ++ fst (card_text_block k row), snd (card_text_block k row)).
Proof.
  unfold card_text_block. rewrite setFont_prefix, card_title_lines_prefix.
  destruct (Card.draw_title_lines (setFont k Card.TITLE_FONT Card.TITLE_SIZE)
              _ 0 Card.LEFT_MARGIN (Card.PAGE_H - Card.TOP_PADDING))
    as [k1 y1].
  cbn [fst snd]. rewrite setFont_prefix, card_bullets_prefix.
  destruct (Card.draw_bullets (setFont k1 Card.BODY_FONT Card.BODY_SIZE)
              _ Card.LEFT_MARGIN _ y1) as [k2 y2].
  reflexivity.
Qed.

Lemma card_text_block_cursor k row :
  let w := Card.PAGE_W - Card.LEFT_MARGIN - Card.RIGHT_MARGIN in
  snd (card_text_block k row)
  == 136
     - title_drop
         (List.length
            (simpleSplit (Card.title row) Card.TITLE_FONT Card.TITLE_SIZE w))
     - total
         (map (fun text =>
                 bullet_drop
                   (List.length
                      (simpleSplit text Card.BODY_FONT Card.BODY_SIZE w)))
            (card_bullets row))
     - 6.
Proof.
  cbv zeta. unfold card_text_block.
  pose proof (card_title_lines_cursor
                (Card.wrap_text (Card.title row) Card.TITLE_FONT
                   Card.TITLE_SIZE
                   (Card.PAGE_W - Card.LEFT_MARGIN - Card.RIGHT_MARGIN))
                (setFont k Card.TITLE_FONT Card.TITLE_SIZE)
                Card.LEFT_MARGIN (Card.PAGE_H - Card.TOP_PADDING)) as Ht.
  destruct (Card.draw_title_lines _ _ 0 _ _) as [k1 y1]. cbn [snd] in Ht.
  pose proof (card_bullets_cursor
                [Card.bullet (Card.b1 row); Card.bullet (Card.b2 row);
                 Card.bullet (lit "Price: " ++ Card.price row);
                 Card.bullet (lit "ID: " ++ Card.inv row)]
                (setFont k1 Card.BODY_FONT Card.BODY_SIZE) Card.LEFT_MARGIN
                (Card.PAGE_W - Card.LEFT_MARGIN - Card.RIGHT_MARGIN) y1)
    as Hb.
  destruct (Card.draw_bullets _ _ _ _ y1) as [k2 y2]. cbn [snd] in *.
  change [Card.bullet (Card.b1 row); Card.bullet (Card.b2 row);
          Card.bullet (lit "Price: " ++ Card.price row);
          Card.bullet (lit "ID: " ++ Card.inv row)]
    with (card_bullets row) in Hb.
  rewrite Hb, Ht. unfold Card.wrap_text.
  match goal with
  | |- _ - title_drop ?n - total ?l - _ == _ =>
      generalize (title_drop n) (total l)
  end.
  intros A B.
  unfold Card.BAR_GAP, Card.PAGE_H, Card.TOP_PADDING, inch. ring.
Qed.

Lemma title_drop_nonneg n : 0 <= title_drop n.
Proof.
  destruct n as [|n]; [apply Qle_refl|]. simpl.
  apply (Qle_trans _ (10 + 0)); [discriminate|].
  apply Qplus_le_r.
  apply Qmult_le_0_compat; [discriminate|apply count_nonneg].
Qed.

Lemma bullet_drop_nonneg n : 0 <= bullet_drop n.
Proof.
  destruct n as [|n]; [apply Qle_refl|]. simpl.
  apply (Qle_trans _ (0 + 12)); [discriminate|].
  apply Qplus_le_l.
  apply Qmult_le_0_compat; [discriminate|apply count_nonneg].
Qed.

Lemma total_nonneg qs : Forall (fun q => 0 <= q) qs -> 0 <= total qs.
Proof.
  induction 1 as [|q qs Hq _ IH]; [apply Qle_refl|].
  simpl. change 0 with (0 + 0). now apply Qplus_le_compat.
Qed.

End CardLayoutFacts.

Section CardLabelFacts.
Context {lib : Reportlab}.

Lemma card_draw_label_blocks c row :
  Card.draw_label c row
  = card_barcode_block (fst (Card.draw_description c row))
      (snd (Card.draw_description c row)) row.
Proof.
  unfold Card.draw_label, card_barcode_block.
  destruct (Card.draw_description c row) as [c1 y]. reflexivity.
Qed.

Lemma pokemon_draw_label_blocks c row :
  Pokemon.draw_label c row
  = card_barcode_block (fst (Pokemon.draw_description c row))
      (snd (Pokemon.draw_description c row)) (to_card row).
Proof.
  unfold Pokemon.draw_label, card_barcode_block.
  destruct (Pokemon.draw_description c row) as [c1 y]. reflexivity.
Qed.

Lemma card_barcode_block_prefix (c k : canvas) y row :
  card_barcode_block (c ++ k) y row
  = match card_barcode_block k y row with
    | Ok ops => Ok (c ++ ops)
    | Raise e => Raise e
    end.
Proof.
  unfold card_barcode_block.
  destruct (Code128 _ _ _) as [bc|e]; [|reflexivity].
  cbn [bind]. unfold drawCentredString, setFont, drawOn.
  rewrite !call_prefix. reflexivity.
Qed.

Lemma card_barcode_block_raise k y row e :
  card_barcode_block k y row = Raise e
  <-> Code128 (Card.barcode row) Card.BARCODE_HEIGHT (Some (0.0125 * inch))
      = Raise e.
Proof.
  unfold card_barcode_block.
  destruct (Code128 _ _ _) as [bc|e0]; cbn [bind]; split; intros H.
  - discriminate H.
  - discriminate H.
  - now injection H as <-.
  - now injection H as <-.
Qed.

(** A run of the card loop that raises stops at the first record whose
    barcode the library refuses. *)
Lemma card_draw_rows_raise rows : forall c e,
  Card.draw_rows c rows = Raise e ->
  exists pre row post c1,
    rows = pre ++ row :: post
    /\ Card.draw_rows c pre = Ok c1
    /\ Code128 (Card.barcode row) Card.BARCODE_HEIGHT (Some (0.0125 * inch))
       = Raise e.
Proof.
  induction rows as [|row rows IH]; intros c e E; [discriminate|].
  cbn [Card.draw_rows] in E.
  destruct (Card.draw_label c row) as [c0|e0] eqn:E0; cbn [bind] in E.
  - destruct (IH _ e E) as (pre & r & post & c1 & -> & Hpre & Hbc).
    exists (row :: pre), r, post, c1. repeat split; try assumption.
    cbn [Card.draw_rows]. now rewrite E0.
  - injection E as <-. exists [], row, rows, c.
    repeat split. rewrite card_draw_label_blocks in E0.
    now apply card_barcode_block_raise in E0.
Qed.

End CardLabelFacts.

Section CardLabelTheorems.
Context {lib : Reportlab}.

(** X13.  In both card scripts the cursor after the description is 136
    points minus the drop of the title (10 for the first line, 11 for each
    further one), minus the drop of each of the four bullets (10 per line
    but 12 for the last one, nothing for a bullet without lines), minus
    the gap of 6; it is never above 130, and it does not depend on the
    canvas. *)
Theorem card_cursor_after_description (c : canvas) :
  let w := Card.PAGE_W - Card.LEFT_MARGIN - Card.RIGHT_MARGIN in
  let drops := fun row : Card.label =>
    title_drop
      (List.length
         (simpleSplit (Card.title row) Card.TITLE_FONT Card.TITLE_SIZE w))
    + total
        (map (fun text =>
                bullet_drop
                  (List.length
                     (simpleSplit text Card.BODY_FONT Card.BODY_SIZE w)))
           (card_bullets row)) in
  (forall row : Card.label,
     snd (Card.draw_description c row) == 136 - drops row - 6
     /\ snd (Card.draw_description c row) <= 130)
  /\ (forall row : Pokemon.label,
        snd (Pokemon.draw_description c row) == 136 - drops (to_card row) - 6
        /\ snd (Pokemon.draw_description c row) <= 130).
Proof.
  intros w drops.
  assert (Hblock : forall k row,
             snd (card_text_block k row) == 136 - drops row - 6
             /\ snd (card_text_block k row) <= 130).
  { intros k row.
    assert (E : snd (card_text_block k row) == 136 - drops row - 6).
    { rewrite card_text_block_cursor. unfold drops, w. ring. }
    split; [exact E|]. rewrite E.
    assert (Hd : 0 <= drops row).
    { unfold drops. change 0 with (0 + 0).
      apply Qplus_le_compat; [apply title_drop_nonneg|].
      apply total_nonneg, Forall_forall. intros q Hq.
      apply in_map_iff in Hq. destruct Hq as (t & <- & _).
      apply bullet_drop_nonneg. }
    setoid_replace 130 with (136 - 0 - 6) by reflexivity.
    apply Qplus_le_l, Qplus_le_r, Qopp_le_compat, Hd. }
  split; intros row.
  - rewrite card_draw_description_block. apply Hblock.
  - rewrite pokemon_draw_description_block. apply Hblock.
Qed.

(** X14.  When the card [draw_label] draws a label, its last three calls
    draw the barcode, select the footer font and draw the footer; the
    footer is 11 points below the lower edge of the barcode, hence never
    lower than -3, and it is below the lower edge of the page (negative)
    exactly when the barcode is lower than 11 points, which is the case
    whenever the floor of 8 points applies. *)
Theorem card_footer_below_barcode
    (c : canvas) (row : Card.label) (c' : canvas) :
  Card.draw_label c row = Ok c' ->
  let y := snd (Card.draw_description c row) in
  exists c1 bc bc_x bc_y footer_y,
    c' = c1 ++ [DrawOn bc bc_x bc_y;
                SetFont "Helvetica-Bold" 9;
                DrawCentredString (Card.PAGE_W / 2) footer_y
                  (Card.inv row ++ lit "    " ++ Card.price row)]
    /\ bc_y = py_max 8 (y - Card.BARCODE_HEIGHT)
    /\ footer_y == bc_y - 11
    /\ -3 <= footer_y
    /\ (footer_y < 0 <-> bc_y < 11)
    /\ (y - Card.BARCODE_HEIGHT <= 8 -> footer_y == -3).
Proof.
  intros E y. rewrite card_draw_label_blocks in E.
  unfold card_barcode_block in E. fold y in E.
  destruct (Code128 _ _ _) as [bc|e]; [|discriminate].
  cbn [bind] in E. injection E as <-.
  exists (fst (Card.draw_description c row)), bc,
    ((Card.PAGE_W - bc_width bc) / 2), (py_max 8 (y - Card.BARCODE_HEIGHT)),
    (py_max 8 (y - Card.BARCODE_HEIGHT) - Card.TEXT_UNDER_BAR_GAP
     - Card.BODY_SIZE).
  assert (Hf : py_max 8 (y - Card.BARCODE_HEIGHT) - Card.TEXT_UNDER_BAR_GAP
               - Card.BODY_SIZE
               == py_max 8 (y - Card.BARCODE_HEIGHT) - 11).
  { unfold Card.TEXT_UNDER_BAR_GAP, Card.BODY_SIZE. ring. }
  split.
  { unfold drawCentredString, setFont, drawOn, call.
    rewrite <- !app_assoc. reflexivity. }
  split; [reflexivity|]. split; [exact Hf|].
  pose proof (py_max_floor 8 (y - Card.BARCODE_HEIGHT)) as Hfloor.
  split; [|split].
  - rewrite Hf. setoid_replace (-3) with (8 - 11) by reflexivity.
    now apply Qplus_le_l.
  - rewrite Hf. split; intros H.
    + apply (Qplus_lt_l _ _ (- 11)).
      setoid_replace (11 + - 11) with 0 by ring. exact H.
    + apply (Qplus_lt_l _ _ (- 11)) in H.
      setoid_replace (11 + - 11) with 0 in H by ring. exact H.
  - intros Hy. rewrite Hf. unfold py_max.
    apply Qle_bool_iff in Hy. rewrite Hy. reflexivity.
Qed.

(** X15.  The card [draw_label] centres the unscaled barcode: the middle
    of the symbol is the middle of the page (72 points); the symbol starts
    left of the page exactly when it is wider than the page (144
    points). *)
Theorem card_barcode_centred
    (c : canvas) (row : Card.label) (c' : canvas) :
  Card.draw_label c row = Ok c' ->
  exists c1 bc bc_x bc_y tail,
    Code128 (Card.barcode row) Card.BARCODE_HEIGHT (Some (0.0125 * inch))
      = Ok bc
    /\ c' = c1 ++ DrawOn bc bc_x bc_y :: tail
    /\ bc_x + bc_width bc / 2 == 72
    /\ (bc_x < 0 <-> 144 < bc_width bc).
Proof.
  intros E. rewrite card_draw_label_blocks in E.
  unfold card_barcode_block in E.
  destruct (Code128 _ _ _) as [bc|e]; [|discriminate].
  cbn [bind] in E. injection E as <-.
  eexists (fst (Card.draw_description c row)), bc,
    ((Card.PAGE_W - bc_width bc) / 2), _, _.
  split; [reflexivity|]. split.
  { unfold drawCentredString, setFont, drawOn, call.
    rewrite <- !app_assoc. reflexivity. }
  assert (Hx : (Card.PAGE_W - bc_width bc) / 2 == 72 - bc_width bc / 2).
  { unfold Card.PAGE_W, inch. field. }
  split; [rewrite Hx; ring|].
  rewrite Hx. split; intros H.
  - apply (Qplus_lt_l _ _ (bc_width bc / 2)) in H.
    setoid_replace (72 - bc_width bc / 2 + bc_width bc / 2) with 72 in H
      by ring.
    setoid_replace (0 + bc_width bc / 2) with (bc_width bc / 2) in H by ring.
    apply (Qmult_lt_r _ _ 2) in H; [|reflexivity].
    setoid_replace (bc_width bc / 2 * 2) with (bc_width bc) in H by field.
    exact H.
  - apply (Qplus_lt_l _ _ (bc_width bc / 2)).
    setoid_replace (72 - bc_width bc / 2 + bc_width bc / 2) with 72 by ring.
    setoid_replace (0 + bc_width bc / 2) with (bc_width bc / 2) by ring.
    apply (Qmult_lt_r _ _ 2); [reflexivity|].
    setoid_replace (bc_width bc / 2 * 2) with (bc_width bc) by field.
    exact H.
Qed.

End CardLabelTheorems.

Section CardScriptsTheorems.
Context {lib : Reportlab}.

Lemma card_label_from_fresh (p : canvas) (row : Card.label) :
  card_barcode_block (fst (card_text_block p row))
    (snd (card_text_block p row)) row
  = match card_barcode_block [] (snd (card_text_block [] row)) row with
    | Ok ops => Ok (p ++ fst (card_text_block [] row) ++ ops)
    | Raise e => Raise e
    end.
Proof.
  rewrite <- (app_nil_r p) at 1 2. rewrite card_text_block_prefix.
  cbn [fst snd].
  rewrite <- (app_nil_r (p ++ fst (card_text_block [] row))).
  rewrite card_barcode_block_prefix.
  destruct (card_barcode_block [] _ row); [|reflexivity].
  now rewrite <- app_assoc.
Qed.

(** X16.  The two card scripts agree: their readers return the same
    records, and for the same record and canvas they draw the same label
    except that the Pokemon script sets the line width to 0.5 after the
    two colour settings; they raise the same error when they raise. *)
Theorem pokemon_label_is_card_label
    (c : canvas) (row : Pokemon.label)
    (sniffed : result (list (list str))) :
  Card.read_rows sniffed
  = (records <- Pokemon.read_rows sniffed ;; Ok (map to_card records))
  /\ match Card.draw_label c (to_card row), Pokemon.draw_label c row with
     | Ok card_canvas, Ok pokemon_canvas =>
         exists ops,
           card_canvas
           = c ++ [SetFillColor "black"; SetStrokeColor "black"] ++ ops
           /\ pokemon_canvas
              = c ++ [SetFillColor "black"; SetStrokeColor "black";
                      SetLineWidth 0.5] ++ ops
     | Raise e, Raise e' => e = e'
     | _, _ => False
     end.
Proof.
  split.
  - destruct sniffed as [reader|e]; [|reflexivity].
    rewrite card_read_rows, pokemon_read_rows. cbn [bind].
    rewrite map_map. reflexivity.
  - rewrite card_draw_label_blocks, pokemon_draw_label_blocks.
    rewrite card_draw_description_block, pokemon_draw_description_block.
    rewrite !card_label_from_fresh.
    destruct (card_barcode_block [] _ (to_card row)) as [ops|e];
      [|reflexivity].
    exists (fst (card_text_block [] (to_card row)) ++ ops).
    unfold setLineWidth, setStrokeColor, setFillColor, call.
    rewrite <- !app_assoc. split; reflexivity.
Qed.

(** X17.  A run of the card script on an input that the csv module can
    read has one of three outcomes.  Without a non-blank row it exits with
    the "No rows parsed" message and nothing is written.  Otherwise the
    output directory is made, and either every label is drawn and a
    document with one page per non-blank row is saved, or the run ends
    with the error of the barcode library for the first record whose
    barcode it refuses, and no document is written. *)
Theorem card_run_outcomes (reader : list (list str)) :
  let r := Card.main (Some (Ok reader)) in
  let records := map card_record (non_blank_rows reader) in
  (records = []
   /\ r = Run (Uncaught (SystemExit (ExitMsg Card.NO_ROWS_MSG))) [])
  \/ (exists doc,
        r = Run Finished [MakeDirs; SaveFile doc]
        /\ Card.draw_rows Canvas records = Ok doc
        /\ page_count doc = List.length (non_blank_rows reader))
  \/ (exists e pre row post c1,
        r = Run (Uncaught e) [MakeDirs]
        /\ records = pre ++ row :: post
        /\ Card.draw_rows Canvas pre = Ok c1
        /\ Code128 (Card.barcode row) Card.BARCODE_HEIGHT
             (Some (0.0125 * inch)) = Raise e).
Proof.
  cbv zeta. unfold Card.main. rewrite card_read_rows.
  destruct (map card_record (non_blank_rows reader)) as [|rec recs] eqn:Er.
  - left. split; reflexivity.
  - right.
    destruct (Card.draw_rows Canvas (rec :: recs)) as [doc|e] eqn:E.
    + left. exists doc. split; [reflexivity|]. split; [reflexivity|].
      apply card_draw_rows_pages in E. rewrite E, <- Er, length_map.
      reflexivity.
    + right.
      destruct (card_draw_rows_raise _ _ _ E)
        as (pre & row & post & c1 & Hrows & Hpre & Hbc).
      exists e, pre, row, post, c1. repeat split; assumption.
Qed.

End CardScriptsTheorems.

(** ** The further properties on concrete inputs *)

(** X2 at the title of [comic_row]. *)
Lemma comic_wrap_text_cursor_witness :
  let text := lit "Amazing Spider-Man #300" in
  let y' :=
    snd (@Comic.wrap_text fixed_pitch Canvas text 18 198 252 13
           "Helvetica-Bold" 12) in
  0 <= 13
  /\ 198 - count (List.length (split text) + 1) * 13 <= y'
  /\ y' <= 198.
Proof.
  intros text y'.
  assert (H : 0 <= 13) by discriminate.
  split; [exact H|].
  exact (proj2 (proj2 (@comic_wrap_text_cursor fixed_pitch Canvas text
                         18 198 252 13 "Helvetica-Bold" 12)) H).
Defined.

(** X3 at a text of two spaces and at a text of two words. *)
Lemma comic_wrap_text_blank_witness :
  is_blank (lit "  ") = true
  /\ @Comic.wrap_text fixed_pitch Canvas (lit "  ") 18 198 252 13
       "Helvetica-Bold" 12 = (Canvas, 198)
  /\ is_blank (lit "a b") = false
  /\ exists line rest,
       drawn_lines
         (fst (@Comic.wrap_text fixed_pitch Canvas (lit "a b") 18 198 252 13
                 "Helvetica-Bold" 12))
       = line :: rest.
Proof.
  assert (H1 : is_blank (lit "  ") = true) by reflexivity.
  assert (H2 : is_blank (lit "a b") = false) by reflexivity.
  split; [exact H1|]. split.
  - exact (proj1 (@comic_wrap_text_blank fixed_pitch Canvas (lit "  ")
                    18 198 252 13 "Helvetica-Bold" 12) H1).
  - split; [exact H2|].
    exact (proj2 (@comic_wrap_text_blank fixed_pitch Canvas (lit "a b")
                    18 198 252 13 "Helvetica-Bold" 12) H2).
Defined.

(** X4 at a text with runs of spaces. *)
Lemma comic_wrap_text_single_spaces_witness :
  let line := lit "First Venom" in
  In line
    (drawn_lines
       (fst (@Comic.wrap_text fixed_pitch Canvas (lit "  First   Venom ")
               18 198 252 11 "Helvetica" 11)))
  /\ strip line = line /\ join (split line) = line.
Proof.
  intros line.
  assert (H : In line
                (drawn_lines
                   (fst (@Comic.wrap_text fixed_pitch Canvas
                           (lit "  First   Venom ") 18 198 252 11
                           "Helvetica" 11))))
    by (vm_compute; left; reflexivity).
  split; [exact H|].
  destruct (@comic_wrap_text_single_spaces fixed_pitch
              (lit "  First   Venom ") 18 198 252 11 "Helvetica" 11 line H)
    as (Hs & Hj & _).
  split; [exact Hs|exact Hj].
Defined.

(** X6 at an input of two rows after an empty one. *)
Lemma comic_document_is_pages_in_order_witness :
  let reader := [[]; comic_row; comic_row_typographic] in
  let doc :=
    match saved (effects (@Comic.main fixed_pitch (Some reader))) with
    | Some d => d
    | None => []
    end in
  saved (effects (@Comic.main fixed_pitch (Some reader))) = Some doc
  /\ doc = flat_map (fun row => @label_ops fixed_pitch row ++ [ShowPage])
             [comic_row; comic_row_typographic].
Proof.
  intros reader doc.
  assert (H : saved (effects (@Comic.main fixed_pitch (Some reader)))
              = Some doc) by (vm_compute; reflexivity).
  split; [exact H|].
  exact (proj1 (@comic_document_is_pages_in_order fixed_pitch reader doc H)).
Defined.

(** X9 at [comic_row]: one title line, one bullet line, one publisher
    line, a symbol 21.6 points high scaled by 1.8. *)
Lemma comic_barcode_height_witness :
  let c' := drawn (@Comic.draw_label fixed_pitch Canvas comic_row) in
  @Comic.draw_label fixed_pitch Canvas comic_row = Ok c'
  /\ exists c1 bc bc_x bc_y footer,
       c' = c1 ++ [SaveState; Translate bc_x bc_y;
                   Scale (py_min (2.6 * inch / bc_width bc) 1.8)
                     (py_min (2.6 * inch / bc_width bc) 1.8);
                   DrawOn bc 0 0; RestoreState;
                   SetFont "Helvetica-Bold" 10;
                   DrawCentredString (Comic.PAGE_W / 2) (bc_y - 12) footer]
       /\ bc_y == 78.12.
Proof.
  intros c'.
  assert (H : @Comic.draw_label fixed_pitch Canvas comic_row = Ok c')
    by (vm_compute; reflexivity).
  split; [exact H|].
  destruct (@comic_barcode_height fixed_pitch Canvas _ _ _ _ _ _ _ _ c' H)
    as (c1 & bc & bc_x & bc_y & footer & Hbc & Hc' & Hy).
  exists c1, bc, bc_x, bc_y, footer. split; [exact Hc'|].
  rewrite Hy. injection Hbc as <-. vm_compute. reflexivity.
Defined.

(** X10 at a plain title. *)
Lemma comic_normalize_text_properties_witness :
  let s := lit "Amazing Spider-Man #300" in
  forallb (fun c => negb (typographic c)) s = true
  /\ Comic.normalize_text s = s.
Proof.
  intros s.
  assert (H : forallb (fun c => negb (typographic c)) s = true)
    by reflexivity.
  split; [exact H|].
  exact (proj2 (proj2 (proj2 (comic_normalize_text_properties s))) H).
Defined.

(** X11 at a row with blanks around its fields. *)
Lemma card_records_are_stripped_witness :
  let reader := [[lit "  Pikachu "; lit "Promo "; lit ""; lit "tcg"; lit " 4.50"]] in
  let records := drawn_records (Card.read_rows (Ok reader)) in
  Card.read_rows (Ok reader) = Ok records
  /\ Forall card_record_stripped records.
Proof.
  intros reader records.
  assert (H : Card.read_rows (Ok reader) = Ok records) by reflexivity.
  split; [exact H|].
  exact (proj1 (card_records_are_stripped reader) records H).
Defined.

(** X12 at [late_column_row]. *)
Lemma card_columns_after_seventh_witness :
  is_blank_row late_column_row = false
  /\ is_blank_row (firstn 7 late_column_row) = true
  /\ Card.read_rows (Ok [late_column_row])
     = Ok [Card.Label [] [] [] [] [] []].
Proof.
  assert (H1 : is_blank_row late_column_row = false) by reflexivity.
  assert (H2 : is_blank_row (firstn 7 late_column_row) = true)
    by reflexivity.
  split; [exact H1|]. split; [exact H2|].
  exact (proj2 (card_columns_after_seventh late_column_row H1) H2).
Defined.

(** X14 at [long_title_card]: the floor applies and the footer is drawn
    at -3. *)
Lemma card_footer_below_barcode_witness :
  let c' := drawn (@Card.draw_label fixed_pitch Canvas long_title_card) in
  @Card.draw_label fixed_pitch Canvas long_title_card = Ok c'
  /\ snd (@Card.draw_description fixed_pitch Canvas long_title_card)
     - Card.BARCODE_HEIGHT <= 8
  /\ exists c1 bc bc_x bc_y footer_y,
       c' = c1 ++ [DrawOn bc bc_x bc_y;
                   SetFont "Helvetica-Bold" 9;
                   DrawCentredString (Card.PAGE_W / 2) footer_y
                     (lit "I    1")]
       /\ footer_y == -3.
Proof.
  intros c'.
  assert (H : @Card.draw_label fixed_pitch Canvas long_title_card = Ok c')
    by (vm_compute; reflexivity).
  assert (Hy : snd (@Card.draw_description fixed_pitch Canvas long_title_card)
               - Card.BARCODE_HEIGHT <= 8)
    by (vm_compute; discriminate).
  split; [exact H|]. split; [exact Hy|].
  destruct (@card_footer_below_barcode fixed_pitch Canvas long_title_card c' H)
    as (c1 & bc & bc_x & bc_y & footer_y & Hc' & _ & _ & _ & _ & Hfloor).
  exists c1, bc, bc_x, bc_y, footer_y. split; [exact Hc'|exact (Hfloor Hy)].
Defined.

(** X15 at [long_title_card]: a symbol of 71.1 points starts at 36.45. *)
Lemma card_barcode_centred_witness :
  let c' := drawn (@Card.draw_label fixed_pitch Canvas long_title_card) in
  @Card.draw_label fixed_pitch Canvas long_title_card = Ok c'
  /\ exists c1 bc bc_x bc_y tail,
       c' = c1 ++ DrawOn bc bc_x bc_y :: tail
       /\ bc_width bc == 71.1
       /\ bc_x + bc_width bc / 2 == 72.
Proof.
  intros c'.
  assert (H : @Card.draw_label fixed_pitch Canvas long_title_card = Ok c')
    by (vm_compute; reflexivity).
  split; [exact H|].
  destruct (@card_barcode_centred fixed_pitch Canvas long_title_card c' H)
    as (c1 & bc & bc_x & bc_y & tail & Hbc & Hc' & Hmid & _).
  exists c1, bc, bc_x, bc_y, tail. split; [exact Hc'|].
  split; [|exact Hmid].
  injection Hbc as <-. reflexivity.
Defined.
